(** * npm-publish-action: a shallow embedding of [index.js]

  The action reads the GitHub event payload and [package.json], decides
  whether one of the pushed commits announces the manifest version, and
  if so tags the commit with git and publishes the package.

  The embedding follows [index.js] function by function.  Everything the
  script obtains from its surroundings (the process environment, the file
  system as seen through [JSON.parse], the child processes it spawns and
  the regular-expression engine behind [String.prototype.match]) is
  collected in a [World]; the script itself becomes a computation in a
  state-and-exception monad whose state records the console output and
  the child processes spawned so far. *)

From Stdlib Require Import ZArith List Ascii String Bool Lia.
From stdpp Require Import base option list gmap strings pretty.

Local Open Scope Z_scope.

(** ** JavaScript strings *)

Module JsString.

(** JavaScript truthiness of a string: only the empty string is falsy. *)
Definition truthy (s : string) : bool :=
  match s with
  | EmptyString => false
  | String _ _ => true
  end.

(** [s.includes(needle)] *)
Fixpoint includes (needle s : string) : bool :=
  String.prefix needle s ||
  match s with
  | EmptyString => false
  | String _ s' => includes needle s'
  end.

(** [parts.join(sep)] *)
Fixpoint join (sep : string) (parts : list string) : string :=
  match parts with
  | [] => EmptyString
  | [p] => p
  | p :: ps => p +:+ sep +:+ join sep ps
  end.

(** A JavaScript string is kept as the bytes of its UTF-8 encoding. *)
Definition bytes (codes : list nat) : string :=
  string_of_list_ascii (ascii_of_nat <$> codes).

(** The white space characters and line terminators of ECMAScript, which
    [trim] removes: TAB, LF, VT, FF, CR, SPACE, then U+00A0, U+1680,
    U+2000 to U+200A, U+2028, U+2029, U+202F, U+205F, U+3000 and U+FEFF. *)
Definition white_space : list string :=
  ([bytes [9]; bytes [10]; bytes [11]; bytes [12]; bytes [13]; bytes [32];
   bytes [194; 160];
   bytes [225; 154; 128];
   bytes [226; 128; 128]; bytes [226; 128; 129]; bytes [226; 128; 130];
   bytes [226; 128; 131]; bytes [226; 128; 132]; bytes [226; 128; 133];
   bytes [226; 128; 134]; bytes [226; 128; 135]; bytes [226; 128; 136];
   bytes [226; 128; 137]; bytes [226; 128; 138];
   bytes [226; 128; 168]; bytes [226; 128; 169];
   bytes [226; 128; 175];
   bytes [226; 129; 159];
   bytes [227; 128; 128];
   bytes [239; 187; 191]])%nat.

(** White space and line terminators among the single-byte characters:
    TAB, LF, VT, FF, CR and SPACE. *)
Definition is_white_space (c : ascii) : bool :=
  let n := nat_of_ascii c in
  ((9 <=? n)%nat && (n <=? 13)%nat) || (n =? 32)%nat.

(** What is left of [s] after [p], when [s] starts with [p]. *)
Fixpoint strip_prefix (p s : string) : option string :=
  match p with
  | EmptyString => Some s
  | String a p' =>
      match s with
      | String b s' => if decide (a = b) then strip_prefix p' s' else None
      | EmptyString => None
      end
  end.

Fixpoint strip_first (ps : list string) (s : string) : option string :=
  match ps with
  | [] => None
  | p :: ps' =>
      match strip_prefix p s with
      | Some rest => Some rest
      | None => strip_first ps' s
      end
  end.

(** What is left of [s] after its first character, when that is white
    space. *)
Definition after_white_space (s : string) : option string :=
  strip_first white_space s.

Fixpoint trimStart_from (fuel : nat) (s : string) : string :=
  match fuel with
  | O => s
  | S fuel' =>
      match after_white_space s with
      | Some rest => trimStart_from fuel' rest
      | None => s
      end
  end.

(** [s.trimStart()]; there are no more characters to remove than bytes. *)
Definition trimStart (s : string) : string := trimStart_from (String.length s) s.

(** Nothing but white space. *)
Definition blank (s : string) : bool := negb (truthy (trimStart s)).

Fixpoint trimEnd (s : string) : string :=
  match s with
  | EmptyString => EmptyString
  | String c s' => if blank s then EmptyString else String c (trimEnd s')
  end.

(** [s.trim()] *)
Definition trim (s : string) : string := trimEnd (trimStart s).

(** The replacement text of [String.prototype.replace] for a pattern
    without capture groups: [$$] is a dollar sign, [$&] the matched text,
    [$`] the text before the match and [$'] the text after it; a dollar
    sign followed by anything else stands for itself. *)
Fixpoint getSubstitution (matched before after replacement : string) : string :=
  match replacement with
  | EmptyString => EmptyString
  | String "$" (String "$" r) =>
      String "$" (getSubstitution matched before after r)
  | String "$" (String "&" r) =>
      matched +:+ getSubstitution matched before after r
  | String "$" (String "`" r) =>
      before +:+ getSubstitution matched before after r
  | String "$" (String "'" r) =>
      after +:+ getSubstitution matched before after r
  | String c r => String c (getSubstitution matched before after r)
  end.

Fixpoint replace_placeholder_from (before s replacement : string) : string :=
  match s with
  | EmptyString => EmptyString
  | String "%" (String "s" rest) =>
      getSubstitution "%s" before rest replacement
        +:+ replace_placeholder_from (before +:+ "%s") rest replacement
  | String c rest =>
      String c (replace_placeholder_from (before +:+ String c EmptyString) rest replacement)
  end.

(** [s.replace(/%s/g, replacement)] *)
Definition replace_placeholder (s replacement : string) : string :=
  replace_placeholder_from EmptyString s replacement.

End JsString.

(** ** [path.join] of Node's posix flavour *)

Module Path.

(** The segments of a path between its slashes. *)
Fixpoint segments (s : string) : list string :=
  match s with
  | EmptyString => [EmptyString]
  | String "/" s' => EmptyString :: segments s'
  | String c s' =>
      match segments s' with
      | [] => [String c EmptyString]
      | seg :: segs => String c seg :: segs
      end
  end.

(** [normalizeString]: the stack of segments kept so far is [kept], last
    segment first. *)
Fixpoint normalizeSegments (allowAboveRoot : bool) (kept segs : list string)
  : list string :=
  match segs with
  | [] => rev kept
  | seg :: segs' =>
      if decide (seg = EmptyString \/ seg = ".") then
        normalizeSegments allowAboveRoot kept segs'
      else if decide (seg = "..") then
        match kept with
        | top :: kept' =>
            if decide (top = "..")
            then normalizeSegments allowAboveRoot (".." :: kept) segs'
            else normalizeSegments allowAboveRoot kept' segs'
        | [] =>
            if allowAboveRoot
            then normalizeSegments allowAboveRoot [".."] segs'
            else normalizeSegments allowAboveRoot [] segs'
        end
      else normalizeSegments allowAboveRoot (seg :: kept) segs'
  end.

Definition isAbsolute (path : string) : bool := String.prefix "/" path.

Fixpoint endsWithSlash (path : string) : bool :=
  match path with
  | EmptyString => false
  | String c EmptyString => bool_decide (c = "/"%char)
  | String _ rest => endsWithSlash rest
  end.

Definition normalize (path : string) : string :=
  match path with
  | EmptyString => "."
  | _ =>
      let absolute := isAbsolute path in
      let trailingSeparator := endsWithSlash path in
      let body :=
        JsString.join "/" (normalizeSegments (negb absolute) [] (segments path)) in
      match body with
      | EmptyString =>
          if absolute then "/" else if trailingSeparator then "./" else "."
      | _ =>
          let body := if trailingSeparator then body +:+ "/" else body in
          if absolute then "/" +:+ body else body
      end
  end.

(** [join(a, b)]: empty arguments are skipped. *)
Definition join (a b : string) : string :=
  match a, b with
  | EmptyString, _ => normalize b
  | _, EmptyString => normalize a
  | _, _ => normalize (a +:+ "/" +:+ b)
  end.

End Path.

(** ** A reference regular-expression engine

  [String.prototype.match] belongs to the JavaScript runtime, not to the
  script; the script's model below takes the engine from the [World].
  This module supplies an engine to run the model with: a backtracking
  matcher in the style of the ECMAScript specification for the fragment
  of the pattern language made of literal characters, [.], the classes
  [\d \s \w] and their complements, [^] and [$], capturing and
  non-capturing groups, alternation and the greedy quantifiers
  [* + ?].  Patterns outside the fragment are rejected by [parse], and
  the subject is read byte by byte, which is how JavaScript reads it
  when it is ASCII. *)

Module RegExp.

Inductive charClass := Digit | Space | WordChar.

Inductive node :=
| Empty
| Char (c : ascii)
| Dot
| Class (k : charClass) (negated : bool)
| Bol
| Eol
| Seq (a b : node)
| Alt (a b : node)
| Repeat (a : node) (min : nat) (max : option nat)
| Group (index : nat) (a : node).

Definition between (lo hi : nat) (c : ascii) : bool :=
  let n := nat_of_ascii c in (lo <=? n)%nat && (n <=? hi)%nat.

Definition in_class (k : charClass) (c : ascii) : bool :=
  match k with
  | Digit => between 48 57 c
  | Space => JsString.is_white_space c
  | WordChar =>
      between 48 57 c || between 65 90 c || between 97 122 c
      || bool_decide (c = "_"%char)
  end.

Definition is_line_terminator (c : ascii) : bool :=
  bool_decide (c = ascii_of_nat 10) || bool_decide (c = ascii_of_nat 13).

(** The capture of group [i] is kept at index [i - 1]. *)
Definition captures := list (option string).

Fixpoint groups (r : node) : list nat :=
  match r with
  | Seq a b | Alt a b => groups a ++ groups b
  | Repeat a _ _ => groups a
  | Group i a => i :: groups a
  | _ => []
  end.

Definition reset (r : node) (caps : captures) : captures :=
  foldr (fun i c => <[Nat.pred i := None]> c) caps (groups r).

Section Matcher.
Context {R : Type}.

(** [matches r off s caps k]: match [r] against the input whose
    remainder at offset [off] is [s], then continue with [k]; [None] is
    failure and makes the caller backtrack. *)
Fixpoint matches (r : node) (off : nat) (s : string) (caps : captures)
    (k : nat -> string -> captures -> option R) {struct r} : option R :=
  match r with
  | Empty => k off s caps
  | Char c =>
      match s with
      | String c' s' => if decide (c = c') then k (S off) s' caps else None
      | EmptyString => None
      end
  | Dot =>
      match s with
      | String c' s' => if is_line_terminator c' then None else k (S off) s' caps
      | EmptyString => None
      end
  | Class cl negated =>
      match s with
      | String c' s' =>
          if xorb (in_class cl c') negated then k (S off) s' caps else None
      | EmptyString => None
      end
  | Bol => if decide (off = 0%nat) then k off s caps else None
  | Eol => match s with EmptyString => k off s caps | _ => None end
  | Seq a b =>
      matches a off s caps (fun off' s' caps' => matches b off' s' caps' k)
  | Alt a b =>
      match matches a off s caps k with
      | Some z => Some z
      | None => matches b off s caps k
      end
  | Group i a =>
      matches a off s caps (fun off' s' caps' =>
        k off' s' (<[Nat.pred i := Some (String.substring 0 (off' - off) s)]> caps'))
  | Repeat a min max =>
      (fix repeat (fuel min : nat) (max : option nat)
           (off : nat) (s : string) (caps : captures) {struct fuel} : option R :=
         match fuel with
         | O => None
         | S fuel' =>
             if decide (max = Some 0%nat) then k off s caps else
             let d := fun off' s' caps' =>
               if (min =? 0)%nat && (off' =? off)%nat then None
               else repeat fuel' (Nat.pred min) (Nat.pred <$> max) off' s' caps' in
             if (min =? 0)%nat then
               match matches a off s (reset a caps) d with
               | Some z => Some z
               | None => k off s caps
               end
             else matches a off s (reset a caps) d
         end) (S (min + String.length s)) min max off s caps
  end.
End Matcher.

(** The first offset at which the pattern matches, scanning forward; the
    result is the match array: the matched text, then the captures. *)
Fixpoint search (r : node) (ngroups : nat) (off : nat) (s : string)
  : option (list (option string)) :=
  match matches r off s (replicate ngroups None)
          (fun off' _ caps => Some (off', caps)) with
  | Some (off', caps) => Some (Some (String.substring 0 (off' - off) s) :: caps)
  | None =>
      match s with
      | EmptyString => None
      | String _ s' => search r ngroups (S off) s'
      end
  end.

Definition is_syntax_character (c : ascii) : bool :=
  JsString.includes (String c EmptyString) "^$\.*+?()[]{}|".

Definition escape (c : ascii) : option node :=
  if decide (c = "d"%char) then Some (Class Digit false)
  else if decide (c = "D"%char) then Some (Class Digit true)
  else if decide (c = "s"%char) then Some (Class Space false)
  else if decide (c = "S"%char) then Some (Class Space true)
  else if decide (c = "w"%char) then Some (Class WordChar false)
  else if decide (c = "W"%char) then Some (Class WordChar true)
  else if decide (c = "t"%char) then Some (Char (ascii_of_nat 9))
  else if decide (c = "n"%char) then Some (Char (ascii_of_nat 10))
  else if decide (c = "r"%char) then Some (Char (ascii_of_nat 13))
  else if in_class WordChar c then None
  else Some (Char c).

Definition quantified (a : node) (s : string) : node * string :=
  match s with
  | String "*" s' => (Repeat a 0 None, s')
  | String "+" s' => (Repeat a 1 None, s')
  | String "?" s' => (Repeat a 0 (Some 1%nat), s')
  | _ => (a, s)
  end.

(** Recursive descent; [n] counts the capturing groups opened so far. *)
Fixpoint parse_disjunction (fuel : nat) (s : string) (n : nat)
  : option (node * string * nat) :=
  match fuel with
  | O => None
  | S fuel' =>
      match parse_alternative fuel' s n with
      | Some (a, String "|" s', n') =>
          match parse_disjunction fuel' s' n' with
          | Some (b, s'', n'') => Some (Alt a b, s'', n'')
          | None => None
          end
      | other => other
      end
  end
with parse_alternative (fuel : nat) (s : string) (n : nat)
  : option (node * string * nat) :=
  match fuel with
  | O => None
  | S fuel' =>
      match s with
      | EmptyString | String "|" _ | String ")" _ => Some (Empty, s, n)
      | _ =>
          match parse_term fuel' s n with
          | Some (t, s', n') =>
              match parse_alternative fuel' s' n' with
              | Some (Empty, s'', n'') => Some (t, s'', n'')
              | Some (rest, s'', n'') => Some (Seq t rest, s'', n'')
              | None => None
              end
          | None => None
          end
      end
  end
with parse_term (fuel : nat) (s : string) (n : nat)
  : option (node * string * nat) :=
  match fuel with
  | O => None
  | S fuel' =>
      match s with
      | String "^" s' => Some (Bol, s', n)
      | String "$" s' => Some (Eol, s', n)
      | String "(" (String "?" (String ":" s')) =>
          match parse_disjunction fuel' s' n with
          | Some (a, String ")" s'', n') =>
              let '(q, s3) := quantified a s'' in Some (q, s3, n')
          | _ => None
          end
      | String "(" (String "?" _) => None
      | String "(" s' =>
          match parse_disjunction fuel' s' (S n) with
          | Some (a, String ")" s'', n') =>
              let '(q, s3) := quantified (Group (S n) a) s'' in Some (q, s3, n')
          | _ => None
          end
      | String "\" (String c s') =>
          match escape c with
          | Some a => let '(q, s3) := quantified a s' in Some (q, s3, n)
          | None => None
          end
      | String "." s' => let '(q, s3) := quantified Dot s' in Some (q, s3, n)
      | String c s' =>
          if is_syntax_character c then None
          else let '(q, s3) := quantified (Char c) s' in Some (q, s3, n)
      | EmptyString => None
      end
  end.

(** [new RegExp(pattern)]; [None] stands for the [SyntaxError]. *)
Definition parse (pattern : string) : option (node * nat) :=
  match parse_disjunction (4 * String.length pattern + 4) pattern 0 with
  | Some (r, EmptyString, n) => Some (r, n)
  | _ => None
  end.

(** [message.match(pattern)] for a pattern given as a string. *)
Definition engine (pattern : string)
  : option (string -> option (list (option string))) :=
  match parse pattern with
  | Some (r, n) => Some (search r n 0)
  | None => None
  end.

End RegExp.

(** ** Data the script reads *)

(** A commit of the event payload. *)
Record Commit := { message : string }.

(** [repository.owner] of the event payload. *)
Record Owner := { owner_name : string; owner_email : string }.

(** The event payload, [{ref, repository: {owner: {name, email}}, commits}];
    [ref] is [None] when the payload has no such field. *)
Record EventPayload := {
  ref : option string;
  owner : Owner;
  commits : list Commit;
}.

(** What [JSON.parse] returns for the two files the script reads: [null],
    an event payload, or a manifest, whose [version] may be absent. *)
Inductive Json :=
| JNull
| JEvent (e : EventPayload)
| JPackage (version : option string).

(** The content of a file: text that [JSON.parse] rejects, or a document. *)
Inductive File :=
| Malformed
| Document (j : Json).

(** ** Exceptions *)

Inductive exn :=
| Error (msg : string)
| TypeError (msg : string)
| SyntaxError (msg : string)
| SystemError (msg : string)
| ExitError (code : option Z)
| NeutralExitError (msg : string).

(** The exit code of a child process as a template literal prints it; a
    child killed by a signal has the code [null]. *)
Definition show_code (code : option Z) : string :=
  match code with
  | Some z => pretty z
  | None => "null"
  end.

(** [e.message] *)
Definition exn_message (e : exn) : string :=
  match e with
  | Error msg | TypeError msg | SyntaxError msg | SystemError msg
  | NeutralExitError msg => msg
  | ExitError code => "command failed with code " +:+ show_code code
  end.

(** ** The world around the script *)

(** A child process as [spawn] is asked to start it. *)
Record Invocation := {
  cwd : string;
  command : string;
  args : list string;
}.

(** How a child process ends: it cannot be started (the [error] event), or
    it exits with a code, having written [stderr]. *)
Inductive ChildResult :=
| SpawnError
| Exit (code : option Z) (stderr : string).

Record World := {
  (** [process.env] *)
  env : gmap string string;
  (** the files that can be read, by path *)
  files : gmap string File;
  (** how a child process ends, given the children spawned before it *)
  child : list Invocation -> Invocation -> ChildResult;
  (** [new RegExp(pattern)], [None] when the pattern is not well formed;
      the result maps a string to its match array, if it matches *)
  regexp : string -> option (string -> option (list (option string)));
  (** the messages of the errors that the runtime throws: of [readFile]
      for a path that cannot be read, of [JSON.parse] for the malformed
      file at a path, and of [new RegExp] for a pattern that is not well
      formed *)
  read_error : string -> string;
  parse_error : string -> string;
  regexp_error : string -> string;
}.

(** ** The monad of the script *)

(** A line on the console: [console.log] of a text or of an exception, or
    [console.error] of a text followed by an exception. *)
Inductive Output :=
| Log (line : string)
| LogExn (e : exn)
| LogError (text : string) (e : exn).

Record State := {
  console : list Output;
  spawned : list Invocation;
}.

Inductive result (A : Type) :=
| Ok (a : A)
| Throw (e : exn).
Arguments Ok {A} a.
Arguments Throw {A} e.

Definition M (A : Type) : Type := State -> result A * State.

Definition ret {A} (a : A) : M A := fun s => (Ok a, s).

Definition throw {A} (e : exn) : M A := fun s => (Throw e, s).

Definition bind {A B} (m : M A) (k : A -> M B) : M B :=
  fun s =>
    match m s with
    | (Ok a, s') => k a s'
    | (Throw e, s') => (Throw e, s')
    end.

(** [try { m } catch (e) { handler }], and [promise.catch(handler)] *)
Definition catch {A} (m : M A) (handler : exn -> M A) : M A :=
  fun s =>
    match m s with
    | (Ok a, s') => (Ok a, s')
    | (Throw e, s') => handler e s'
    end.

Declare Scope script_scope.
Delimit Scope script_scope with script.
Notation "x <- m ;; k" := (bind m (fun x => k))
  (at level 100, m at next level, right associativity) : script_scope.
Notation "m ;; k" := (bind m (fun _ => k))
  (at level 100, right associativity) : script_scope.
Local Open Scope script_scope.

Definition emit (o : Output) : M unit :=
  fun s => (Ok tt, {| console := console s ++ [o]; spawned := spawned s |}).

(** [console.log(line)] *)
Definition console_log (line : string) : M unit := emit (Log line).

(** [console.error(text, e)] *)
Definition console_error (text : string) (e : exn) : M unit := emit (LogError text e).

(** ** JavaScript's [||] on strings that may be undefined *)

Definition truthy (v : option string) : bool :=
  match v with
  | Some s => JsString.truthy s
  | None => false
  end.

(** [a || b] *)
Definition or_else (a b : option string) : option string :=
  if truthy a then a else b.

(** [a || "literal"] *)
Definition or_default (a : option string) (literal : string) : string :=
  match a with
  | Some s => if JsString.truthy s then s else literal
  | None => literal
  end.

(** The text of a value inside a template literal. *)
Definition show (v : option string) : string :=
  match v with
  | Some s => s
  | None => "undefined"
  end.

(** ** The script *)

Record Config := {
  commitPattern : string;
  tagName : string;
  tagMessage : string;
  tagAuthor : Owner;
  publishWith : string;
}.

Section Script.

Variable w : World.

Definition getEnv (name : string) : option string :=
  or_else (env w !! name) (env w !! ("INPUT_" +:+ name)).

Definition placeholderEnv (name defaultValue : string) : M string :=
  match getEnv name with
  | None => ret defaultValue
  | Some str =>
      if negb (JsString.truthy str) then ret defaultValue
      else if negb (JsString.includes "%s" str) then
        throw (Error ("missing placeholder in variable: " +:+ name))
      else ret str
  end.

Definition readJson (file : string) : M Json :=
  match files w !! file with
  | None => throw (SystemError (read_error w file))
  | Some Malformed => throw (SyntaxError (parse_error w file))
  | Some (Document j) => ret j
  end.

(** [spawn(command, args, {cwd, ...})] up to the end of the child. *)
Definition spawn (dir cmd : string) (arguments : list string) : M ChildResult :=
  fun s =>
    let i := {| cwd := dir; command := cmd; args := arguments |} in
    (Ok (child w (spawned s) i),
     {| console := console s; spawned := spawned s ++ [i] |}).

Definition run (dir cmd : string) (arguments : list string) : M bool :=
  console_log ("Executing: " +:+ cmd +:+ " " +:+ JsString.join " " arguments) ;;
  outcome <- spawn dir cmd arguments ;;
  match outcome with
  | SpawnError => throw (Error ("command failed: " +:+ cmd))
  | Exit code stderr =>
      if decide (code = Some 0) then ret true
      else
        let stderr := JsString.trim stderr in
        (if JsString.truthy stderr then
           console_log ("command failed with code " +:+ show_code code) ;;
           console_log stderr
         else ret tt) ;;
        throw (ExitError code)
  end.

(** [message.match(pattern)]: the pattern, a string, is compiled first. *)
Definition String_match (msg pattern : string) : M (option (list (option string))) :=
  match regexp w pattern with
  | None => throw (SyntaxError (regexp_error w pattern))
  | Some exec => ret (exec msg)
  end.

(** [match && match[1] === version] *)
Definition captured (m : option (list (option string))) (version : string) : bool :=
  match m with
  | Some groups => bool_decide (mjoin (groups !! 1%nat) = Some version)
  | None => false
  end.

Fixpoint checkCommit (config : Config) (commits : list Commit) (version : string)
  : M bool :=
  match commits with
  | [] => ret false
  | commit :: rest =>
      m <- String_match (message commit) (commitPattern config) ;;
      if captured m version then
        console_log ("Found commit: " +:+ message commit) ;;
        ret true
      else checkCommit config rest version
  end.

Definition createTag (dir : string) (config : Config) (version : string) : M unit :=
  let tagName := JsString.replace_placeholder (tagName config) version in
  let tagMessage := JsString.replace_placeholder (tagMessage config) version in
  tagExists <-
    catch (run dir "git" ["rev-parse"; "-q"; "--verify"; "refs/tags/" +:+ tagName])
      (fun e =>
         match e with
         | ExitError (Some 1) => ret false
         | _ => throw e
         end) ;;
  if tagExists : bool then
    console_log ("Tag already exists: " +:+ tagName) ;;
    throw (NeutralExitError EmptyString)
  else
    let name := owner_name (tagAuthor config) in
    let email := owner_email (tagAuthor config) in
    run dir "git" ["config"; "user.name"; name] ;;
    run dir "git" ["config"; "user.email"; email] ;;
    run dir "git" ["tag"; "-a"; "-m"; tagMessage; tagName] ;;
    run dir "git" ["push"; "origin"; "refs/tags/" +:+ tagName] ;;
    console_log ("Tag has been created successfully: " +:+ tagName).

Definition publishPackage (dir : string) (config : Config) (version : string) : M unit :=
  (if decide (publishWith config = "yarn") then
     run dir "yarn" ["publish"; "--non-interactive"; "--new-version"; version] ;;
     ret tt
   else if decide (publishWith config = "npm") then
     run dir "npm" ["publish"; "--access"; "public"] ;;
     ret tt
   else throw (Error ("Unsupported publish type: " +:+ publishWith config))) ;;
  console_log ("Version has been published successfully: " +:+ version).

(** [packageObj == null || packageObj.version == null] decides whether
    there is a version; an event payload has no [version] field. *)
Definition version_of (packageObj : Json) : option string :=
  match packageObj with
  | JPackage version => version
  | JNull | JEvent _ => None
  end.

Definition processDirectory (dir : string) (config : Config) (commits : list Commit)
  : M unit :=
  let packageFile := Path.join dir "package.json" in
  packageObj <-
    catch (readJson packageFile)
      (fun _ => throw (NeutralExitError ("package file not found: " +:+ packageFile))) ;;
  match version_of packageObj with
  | None => throw (Error "missing version field!")
  | Some version =>
      found <- checkCommit config commits version ;;
      if found : bool then
        catch (createTag dir config version ;; console_log "Tag created.")
          (fun e => console_error "Failed to create the tag: " e) ;;
        publishPackage dir config version ;;
        console_log "Package published."
      else
        console_log "No release command detected in the commit message, finishing the job."
  end.

(** Property reads on the parsed event file.  Reading a property of [null]
    or of [undefined] is a [TypeError]; a manifest has none of the fields
    of an event payload. *)
Definition get_ref (eventObj : Json) : M (option string) :=
  match eventObj with
  | JNull => throw (TypeError "Cannot read properties of null (reading 'ref')")
  | JEvent e => ret (ref e)
  | JPackage _ => ret None
  end.

Definition get_owner (eventObj : Json) : M Owner :=
  match eventObj with
  | JEvent e => ret (owner e)
  | JNull | JPackage _ =>
      throw (TypeError "Cannot read properties of undefined (reading 'owner')")
  end.

Definition get_commits (eventObj : Json) : M (list Commit) :=
  match eventObj with
  | JEvent e => ret (commits e)
  | JNull | JPackage _ => throw (TypeError "commits is not iterable")
  end.

(** The local constants of [main] that depend on the environment only. *)
Definition main_dir : string :=
  or_default (env w !! "GITHUB_WORKSPACE") "/github/workspace".

Definition main_eventFile : string :=
  or_default (env w !! "GITHUB_EVENT_PATH") "/github/workflow/event.json".

Definition main_defaultBranch : string :=
  or_default (getEnv "DEFAULT_BRANCH") "master".

Definition main_commitPattern : string :=
  or_default (getEnv "COMMIT_PATTERN") "^(?:Release|Version) (\S+)".

Definition main_config (repositoryOwner : Owner) : M Config :=
  tagName <- placeholderEnv "TAG_NAME" "v%s" ;;
  tagMessage <- placeholderEnv "TAG_MESSAGE" "v%s" ;;
  ret {| commitPattern := main_commitPattern;
         tagName := tagName;
         tagMessage := tagMessage;
         tagAuthor :=
           {| owner_name := or_default (getEnv "COMMIT_USER") (owner_name repositoryOwner);
              owner_email := or_default (getEnv "COMMIT_EMAIL") (owner_email repositoryOwner) |};
         publishWith := or_default (getEnv "PUBLISH_WITH") "yarn" |}.

Definition main : M unit :=
  let dir := main_dir in
  let eventFile := main_eventFile in
  eventObj <- readJson eventFile ;;
  let defaultBranch := main_defaultBranch in
  eventRef <- get_ref eventObj ;;
  if negb (bool_decide (eventRef = Some ("refs/heads/" +:+ defaultBranch))) then
    console_log ("Ref " +:+ show eventRef +:+ " is not the default branch: "
                 +:+ defaultBranch +:+ ", you must run this action on "
                 +:+ defaultBranch +:+ " branch.") ;;
    throw (NeutralExitError EmptyString)
  else
    repositoryOwner <- get_owner eventObj ;;
    config <- main_config repositoryOwner ;;
    commits <- get_commits eventObj ;;
    processDirectory dir config commits.

Definition initial : State := {| console := []; spawned := [] |}.

(** The handler at the bottom of the script, [main().catch(e => ...)],
    which sets [process.exitCode]. *)
Definition exit_handler (e : exn) (s : State) : Z * State :=
  match e with
  | NeutralExitError _ => (78, s)
  | _ =>
      (1, snd ((if JsString.truthy (exn_message e)
                then console_log (exn_message e)
                else emit (LogExn e)) s))
  end.

(** A run of the script: the process exit code and the final state. *)
Definition script : Z * State :=
  match main initial with
  | (Ok _, s) => (0, s)
  | (Throw e, s) => exit_handler e s
  end.

End Script.

(** ** Vocabulary of the properties *)

(** The state [s] after more lines have been printed. *)
Definition logged (s : State) (lines : list Output) : State :=
  {| console := console s ++ lines; spawned := spawned s |}.

(** The state [s] after one more child has been spawned. *)
Definition having_spawned (s : State) (i : Invocation) : State :=
  {| console := console s; spawned := spawned s ++ [i] |}.

(** The state in which [run] waits for the child [i]: the command line has
    been printed and the child has been spawned. *)
Definition started (s : State) (i : Invocation) : State :=
  having_spawned
    (logged s [Log ("Executing: " +:+ command i +:+ " " +:+ JsString.join " " (args i))]) i.

(** The commit's message matches the pattern and the first captured group
    is the version, character for character. *)
Definition announces (w : World) (pattern version : string) (c : Commit) : Prop :=
  exists exec groups,
    regexp w pattern = Some exec /\
    exec (message c) = Some groups /\
    groups !! 1%nat = Some (Some version).

(** The pattern is well formed and the commit's message does not match it
    with the version as its first captured group. *)
Definition passes_over (w : World) (pattern version : string) (c : Commit) : Prop :=
  exists exec,
    regexp w pattern = Some exec /\
    forall groups, exec (message c) = Some groups ->
                   groups !! 1%nat <> Some (Some version).

(** Both decided by running the engine. *)
Definition announcesb (w : World) (pattern version : string) (c : Commit) : bool :=
  match regexp w pattern with
  | Some exec =>
      match exec (message c) with
      | Some groups => bool_decide (groups !! 1%nat = Some (Some version))
      | None => false
      end
  | None => false
  end.

Definition passes_overb (w : World) (pattern version : string) (c : Commit) : bool :=
  match regexp w pattern with
  | Some _ => negb (announcesb w pattern version c)
  | None => false
  end.

(** The option [name] takes the value of [INPUT_name] when the variable
    [name] itself is unset or empty and [INPUT_name] is not empty. *)
Definition falls_back (w : World) (name value : string) : Prop :=
  forall v,
    truthy (env w !! name) = false ->
    env w !! ("INPUT_" +:+ name) = Some v ->
    JsString.truthy v = true ->
    value = v.

(** The world [w] with another environment. *)
Definition with_env (f : gmap string string -> gmap string string) (w : World) : World :=
  {| env := f (env w); files := files w; child := child w; regexp := regexp w;
     read_error := read_error w; parse_error := parse_error w;
     regexp_error := regexp_error w |}.

(** The invocation by which [createTag] asks git whether the tag exists. *)
Definition rev_parse (dir : string) (config : Config) (version : string) : Invocation :=
  {| cwd := dir; command := "git";
     args := ["rev-parse"; "-q"; "--verify";
              "refs/tags/" +:+ JsString.replace_placeholder (tagName config) version] |}.

(** ** Sample worlds *)

Definition commits_of (messages : list string) : list Commit :=
  (fun m => {| message := m |}) <$> messages.

Definition octocat : Owner :=
  {| owner_name := "octocat"; owner_email := "octocat@example.org" |}.

Definition push_event (branch_ref : string) (messages : list string) : File :=
  Document (JEvent {| ref := Some branch_ref; owner := octocat;
                      commits := commits_of messages |}).

Definition manifest (version : string) : File :=
  Document (JPackage (Some version)).

(** The messages of the runtime in the samples: the files that cannot be
    read do not exist, the malformed ones are empty, and the patterns that
    are not well formed have a group that is not closed. *)
Definition no_such_file (file : string) : string :=
  "ENOENT: no such file or directory, open '" +:+ file +:+ "'".

Definition empty_json (file : string) : string := "Unexpected end of JSON input".

Definition unterminated_group (pattern : string) : string :=
  "Invalid regular expression: /" +:+ pattern +:+ "/: Unterminated group".

Definition world_of (variables : list (string * string))
    (documents : list (string * File))
    (children : list Invocation -> Invocation -> ChildResult) : World :=
  {| env := list_to_map variables;
     files := list_to_map documents;
     child := children;
     regexp := RegExp.engine;
     read_error := no_such_file;
     parse_error := empty_json;
     regexp_error := unterminated_group |}.

(** Every child exits with code 0. *)
Definition all_succeed : list Invocation -> Invocation -> ChildResult :=
  fun _ _ => Exit (Some 0) EmptyString.

(** The git commands whose first argument is listed in [replies] end as
    listed there; every other child exits with code 0. *)
Definition git_replies (replies : list (string * ChildResult))
  : list Invocation -> Invocation -> ChildResult :=
  fun _ i =>
    let table : gmap string ChildResult := list_to_map replies in
    match head (args i) with
    | Some subcommand =>
        if decide (command i = "git")
        then default (Exit (Some 0) EmptyString) (table !! subcommand)
        else Exit (Some 0) EmptyString
    | None => Exit (Some 0) EmptyString
    end.

(** [git rev-parse] exits with code 1: the tag is not there yet. *)
Definition no_tag : string * ChildResult := ("rev-parse", Exit (Some 1) EmptyString).

Definition workspace : string := "/github/workspace".

Definition default_config : Config :=
  {| commitPattern := "^(?:Release|Version) (\S+)";
     tagName := "v%s";
     tagMessage := "v%s";
     tagAuthor := octocat;
     publishWith := "yarn" |}.

(** A push to master whose second commit releases 1.2.3. *)
Definition release_messages : list string :=
  ["fix typo"; "Release 1.2.3"; "Release 1.2.3 again"].

Definition release_files : list (string * File) :=
  [("/github/workflow/event.json", push_event "refs/heads/master" release_messages);
   ("/github/workspace/package.json", manifest "1.2.3")].

(** The release in a repository that has no tag v1.2.3 yet: [git rev-parse]
    exits with code 1 and everything else succeeds. *)
Definition release_world : World :=
  world_of [] release_files (git_replies [no_tag]).

(** The same release when the tag is there already: [git rev-parse] succeeds. *)
Definition tagged_world : World := world_of [] release_files all_succeed.

(** The same release when [git rev-parse] itself breaks down. *)
Definition broken_git_world : World :=
  world_of [] release_files
    (git_replies [("rev-parse", Exit (Some 128) "fatal: not a git repository")]).

(** The same release with the remote refusing the tag, for two reasons. *)
Definition newline : string := String (ascii_of_nat 10) EmptyString.

Definition push_stderr_denied : string :=
  "remote: Permission denied" +:+ newline.

Definition push_stderr_timeout : string :=
  "fatal: unable to access: timed out" +:+ newline.

Definition denied_world : World :=
  world_of [] release_files
    (git_replies [no_tag; ("push", Exit (Some 1) push_stderr_denied)]).

Definition timeout_world : World :=
  world_of [] release_files
    (git_replies [no_tag; ("push", Exit (Some 1) push_stderr_timeout)]).

Definition git_push : list string := ["push"; "origin"; "refs/tags/v1.2.3"].

Definition git_push_invocation : Invocation :=
  {| cwd := workspace; command := "git"; args := git_push |}.

(** The same release with [PUBLISH_WITH] set to [skip]. *)
Definition skip_world : World :=
  world_of [("PUBLISH_WITH", "skip")] release_files (git_replies [no_tag]).

(** A push to master with no [package.json] in the workspace, and one whose
    [package.json] is not JSON. *)
Definition missing_manifest_world : World :=
  world_of []
    [("/github/workflow/event.json", push_event "refs/heads/master" release_messages)]
    all_succeed.

Definition malformed_manifest_world : World :=
  world_of []
    [("/github/workflow/event.json", push_event "refs/heads/master" release_messages);
     ("/github/workspace/package.json", Malformed)]
    all_succeed.

(** A push to master of version 2.0.0 none of whose commits releases it,
    without and with a tag name that lacks the placeholder. *)
Definition quiet_messages : list string := ["fix bug"; "Release 1.9.9"].

Definition quiet_files : list (string * File) :=
  [("/github/workflow/event.json", push_event "refs/heads/master" quiet_messages);
   ("/github/workspace/package.json", manifest "2.0.0")].

Definition quiet_world : World := world_of [] quiet_files all_succeed.

Definition quiet_world_bad_template : World :=
  world_of [("TAG_NAME", "release")] quiet_files all_succeed.

(** The same push with a commit pattern that is not a regular expression. *)
Definition quiet_world_bad_pattern : World :=
  world_of [("COMMIT_PATTERN", "(")] quiet_files all_succeed.

(** The release pushed to another branch. *)
Definition branch_world : World :=
  world_of []
    [("/github/workflow/event.json", push_event "refs/heads/develop" release_messages);
     ("/github/workspace/package.json", manifest "1.2.3")]
    all_succeed.

(** The release with workspace and event file announced through the
    [INPUT_] variables only. *)
Definition input_paths_world : World :=
  world_of [("INPUT_GITHUB_WORKSPACE", "/work");
            ("INPUT_GITHUB_EVENT_PATH", "/work/event.json")]
    [("/work/event.json", push_event "refs/heads/master" release_messages);
     ("/work/package.json", manifest "1.2.3")]
    all_succeed.

(** The release with workspace and event file announced through the plain
    variables. *)
Definition plain_paths_world : World :=
  world_of [("GITHUB_WORKSPACE", "/work");
            ("GITHUB_EVENT_PATH", "/work/event.json")]
    [("/work/event.json", push_event "refs/heads/master" release_messages);
     ("/work/package.json", manifest "1.2.3")]
    all_succeed.

(** The release with the strategy announced through [INPUT_PUBLISH_WITH]. *)
Definition input_npm_world : World :=
  world_of [("INPUT_PUBLISH_WITH", "npm")] release_files all_succeed.

(** Environments in which [TAG_NAME] is the empty string. *)
Definition empty_tag_name_world : World :=
  world_of [("TAG_NAME", EmptyString)] release_files all_succeed.

Definition empty_input_tag_name_world : World :=
  world_of [("INPUT_TAG_NAME", EmptyString)] release_files all_succeed.

Definition empty_tag_name_alias_world : World :=
  world_of [("TAG_NAME", EmptyString); ("INPUT_TAG_NAME", "release")]
    release_files all_succeed.

Definition empty_tag_name_alias_ok_world : World :=
  world_of [("TAG_NAME", EmptyString); ("INPUT_TAG_NAME", "release-%s")]
    release_files all_succeed.

(** ** Further vocabulary *)

(** Every placeholder of [template] replaced by [value] as it stands. *)
Fixpoint substitute (template value : string) : string :=
  match template with
  | EmptyString => EmptyString
  | String "%" (String "s" rest) => value +:+ substitute rest value
  | String c rest => String c (substitute rest value)
  end.

(** Made of white space characters and line terminators only. *)
Definition only_white_space (s : string) : Prop :=
  exists characters,
    Forall (fun c => c ∈ JsString.white_space) characters /\
    s = foldr String.append EmptyString characters.

(** The git commands of [createTag], in the order in which it runs them. *)
Definition tag_commands (dir : string) (config : Config) (version : string)
  : list Invocation :=
  let tag := JsString.replace_placeholder (tagName config) version in
  let note := JsString.replace_placeholder (tagMessage config) version in
  [rev_parse dir config version;
   {| cwd := dir; command := "git";
      args := ["config"; "user.name"; owner_name (tagAuthor config)] |};
   {| cwd := dir; command := "git";
      args := ["config"; "user.email"; owner_email (tagAuthor config)] |};
   {| cwd := dir; command := "git"; args := ["tag"; "-a"; "-m"; note; tag] |};
   {| cwd := dir; command := "git"; args := ["push"; "origin"; "refs/tags/" +:+ tag] |}].

(** The command of [publishPackage], if the strategy has one. *)
Definition publish_command (dir : string) (config : Config) (version : string)
  : option Invocation :=
  if decide (publishWith config = "yarn") then
    Some {| cwd := dir; command := "yarn";
            args := ["publish"; "--non-interactive"; "--new-version"; version] |}
  else if decide (publishWith config = "npm") then
    Some {| cwd := dir; command := "npm"; args := ["publish"; "--access"; "public"] |}
  else None.

(** The run gets as far as the commit scan: the event file holds a payload
    for the default branch, the configuration is accepted and the manifest
    has a version. *)
Definition reaches_scan (w : World) (e : EventPayload) (config : Config)
    (version : string) : Prop :=
  files w !! main_eventFile w = Some (Document (JEvent e)) /\
  ref e = Some ("refs/heads/" +:+ main_defaultBranch w) /\
  fst (main_config w (owner e) initial) = Ok config /\
  files w !! Path.join (main_dir w) "package.json"
    = Some (Document (JPackage (Some version))).

(** The scan is reached and one of the commits releases the version. *)
Definition approved (w : World) (e : EventPayload) (config : Config)
    (version : string) : Prop :=
  reaches_scan w e config version /\
  exists c, c ∈ commits e /\ announces w (main_commitPattern w) version c.

(** How a run ends, from the outcome of [main]. *)
Definition finish (r : result unit * State) : Z * State :=
  match r with
  | (Ok _, s) => (0, s)
  | (Throw e, s) => exit_handler e s
  end.

(** A path segment that [normalize] keeps as it is. *)
Definition ordinary (seg : string) : Prop :=
  seg <> EmptyString /\ seg <> "." /\ seg <> "..".

(** The segments of a directory, each followed by a slash. *)
Fixpoint directory (segs : list string) : string :=
  match segs with
  | [] => EmptyString
  | seg :: segs' => seg +:+ "/" +:+ directory segs'
  end.

(** One step through a sequence of [run]s: the outcome of the next [run]
    is named, together with what it has spawned ([spawns] and [never_false]
    are the lemmas that say so). *)
Ltac run_step spawns never_false :=
  match goal with
  | |- context [run ?w ?d ?c ?a ?s] =>
      let H := fresh "Hrun" in
      let P := fresh "Hspawned" in
      pose proof (spawns w d c a s) as P;
      destruct (run w d c a s) as [[[]|?] ?] eqn:H; cbn [snd fst] in P;
      [|by destruct (never_false _ _ _ _ _ _ H)|]
  end.

(** The payload of the sample release. *)
Definition release_payload : EventPayload :=
  {| ref := Some "refs/heads/master"; owner := octocat;
     commits := commits_of release_messages |}.

(** The git commands end as listed in [replies] and the publish command,
    yarn's or npm's, ends as [published]. *)
Definition children_of (replies : list (string * ChildResult)) (published : ChildResult)
  : list Invocation -> Invocation -> ChildResult :=
  fun history i =>
    if decide (command i = "yarn" \/ command i = "npm") then published
    else git_replies replies history i.

(** The sample release when yarn fails, and when it cannot be started. *)
Definition yarn_fails_world : World :=
  world_of [] release_files
    (children_of [no_tag] (Exit (Some 1) "error Couldn't publish package")).

Definition yarn_missing_world : World :=
  world_of [] release_files (children_of [no_tag] SpawnError).

(** The sample release when git cannot be started at all. *)
Definition no_git_world : World :=
  world_of [] release_files
    (fun _ i => if decide (command i = "git") then SpawnError
                else Exit (Some 0) EmptyString).

(** U+00A0 and a line feed. *)
Definition no_break_space_and_newline : string :=
  JsString.bytes [194; 160; 10]%nat.

(** The sample release when [git tag] fails without a word. *)
Definition silent_tag_failure_world : World :=
  world_of [] release_files
    (git_replies [no_tag; ("tag", Exit (Some 128) no_break_space_and_newline)]).

(** The sample release published through an unknown strategy. *)
Definition pnpm_world : World :=
  world_of [("PUBLISH_WITH", "pnpm")] release_files (git_replies [no_tag]).

(** A push to master with a manifest that is [null], and with one that has
    no version. *)
Definition null_manifest_world : World :=
  world_of []
    [("/github/workflow/event.json", push_event "refs/heads/master" release_messages);
     ("/github/workspace/package.json", Document JNull)]
    all_succeed.

Definition versionless_manifest_world : World :=
  world_of []
    [("/github/workflow/event.json", push_event "refs/heads/master" release_messages);
     ("/github/workspace/package.json", Document (JPackage None))]
    all_succeed.

(** No event file, and an event file that holds [null]. *)
Definition no_event_world : World :=
  world_of [] [("/github/workspace/package.json", manifest "1.2.3")] all_succeed.

Definition null_event_world : World :=
  world_of []
    [("/github/workflow/event.json", Document JNull);
     ("/github/workspace/package.json", manifest "1.2.3")]
    all_succeed.

(** A push of no commits, with a commit pattern that is not a regular
    expression. *)
Definition empty_push_bad_pattern_world : World :=
  world_of [("COMMIT_PATTERN", "(")]
    [("/github/workflow/event.json", push_event "refs/heads/master" []);
     ("/github/workspace/package.json", manifest "2.0.0")]
    all_succeed.

(** The sample release with every option set twice, plainly and through
    the [INPUT_] variable. *)
Definition both_set_world : World :=
  world_of [("PUBLISH_WITH", "npm"); ("INPUT_PUBLISH_WITH", "yarn");
            ("TAG_NAME", "release-%s"); ("INPUT_TAG_NAME", "v%s")]
    release_files (git_replies [no_tag]).

(** ** The model at work *)

(** The default commit pattern on the reference engine. *)
Example default_pattern_matches :
  (fun exec => exec "Release 1.2.3") <$> RegExp.engine "^(?:Release|Version) (\S+)"
    = Some (Some [Some "Release 1.2.3"; Some "1.2.3"]) /\
  (fun exec => exec "Version v2.0.0-rc.1 at last")
    <$> RegExp.engine "^(?:Release|Version) (\S+)"
    = Some (Some [Some "Version v2.0.0-rc.1"; Some "v2.0.0-rc.1"]) /\
  (fun exec => exec "chore: Release 1.2.3") <$> RegExp.engine "^(?:Release|Version) (\S+)"
    = Some None /\
  (fun exec => exec "Release ") <$> RegExp.engine "^(?:Release|Version) (\S+)"
    = Some None.
Proof. repeat split; vm_compute; reflexivity. Qed.

(** Every placeholder of a template is replaced. *)
Example templates_are_rendered :
  JsString.replace_placeholder "v%s" "1.2.3" = "v1.2.3" /\
  JsString.replace_placeholder "%s (release %s)" "1.2.3" = "1.2.3 (release 1.2.3)".
Proof. split; reflexivity. Qed.

(** Version 1.2.3 with a commit [Release 1.2.3] and the tag not there yet:
    the tag v1.2.3 is created and pushed and yarn publishes the version. *)
Example release_is_tagged_and_published :
  script release_world =
    (0,
     {| console :=
          [Log "Found commit: Release 1.2.3";
           Log "Executing: git rev-parse -q --verify refs/tags/v1.2.3";
           Log "Executing: git config user.name octocat";
           Log "Executing: git config user.email octocat@example.org";
           Log "Executing: git tag -a -m v1.2.3 v1.2.3";
           Log "Executing: git push origin refs/tags/v1.2.3";
           Log "Tag has been created successfully: v1.2.3";
           Log "Tag created.";
           Log "Executing: yarn publish --non-interactive --new-version 1.2.3";
           Log "Version has been published successfully: 1.2.3";
           Log "Package published."];
        spawned :=
          [rev_parse workspace default_config "1.2.3";
           {| cwd := workspace; command := "git";
              args := ["config"; "user.name"; "octocat"] |};
           {| cwd := workspace; command := "git";
              args := ["config"; "user.email"; "octocat@example.org"] |};
           {| cwd := workspace; command := "git";
              args := ["tag"; "-a"; "-m"; "v1.2.3"; "v1.2.3"] |};
           git_push_invocation;
           {| cwd := workspace; command := "yarn";
              args := ["publish"; "--non-interactive"; "--new-version"; "1.2.3"] |}] |}).
Proof. vm_compute. reflexivity. Qed.

(** ** The commit scan *)

Lemma captured_true m version :
  captured m version = true <->
  exists groups, m = Some groups /\ groups !! 1%nat = Some (Some version).
Proof.
  unfold captured. destruct m as [groups|];
    [|split; [discriminate|intros (g & [=] & _)]].
  rewrite bool_decide_eq_true. split.
  - intros H. exists groups. split; [done|].
    destruct (groups !! 1%nat) as [[v|]|]; simpl in H; congruence.
  - intros (g & [= <-] & ->). done.
Qed.

Lemma announces_captured w pattern version c exec :
  regexp w pattern = Some exec ->
  announces w pattern version c <-> captured (exec (message c)) version = true.
Proof.
  intros Hre. rewrite captured_true. unfold announces. split.
  - intros (exec' & groups & Hre' & Hm & Hg). exists groups. split; congruence.
  - intros (groups & Hm & Hg). by exists exec, groups.
Qed.

Lemma announcesb_true w pattern version c :
  announcesb w pattern version c = true <-> announces w pattern version c.
Proof.
  unfold announcesb, announces. destruct (regexp w pattern) as [exec|].
  - destruct (exec (message c)) as [groups|] eqn:Hm.
    + rewrite bool_decide_eq_true. split.
      * intros Hg. by exists exec, groups.
      * intros (? & g & [= <-] & Hm' & Hg). congruence.
    + split; [discriminate|]. intros (? & g & [= <-] & Hm' & _). congruence.
  - split; [discriminate|]. by intros (? & ? & [=] & _).
Qed.

Lemma announcesb_false w pattern version c :
  announcesb w pattern version c = false -> ~ announces w pattern version c.
Proof. intros Hb Ha. apply announcesb_true in Ha. congruence. Qed.

Lemma passes_overb_true w pattern version c :
  passes_overb w pattern version c = true -> passes_over w pattern version c.
Proof.
  unfold passes_overb, passes_over.
  destruct (regexp w pattern) as [exec|] eqn:Hre; [|discriminate].
  intros Hb%negb_true_iff. exists exec. split; [done|]. intros groups Hm Hg.
  apply (announcesb_false _ _ _ _ Hb). by exists exec, groups.
Qed.

Lemma checkCommit_cons w config c rest version exec s :
  regexp w (commitPattern config) = Some exec ->
  checkCommit w config (c :: rest) version s =
    if captured (exec (message c)) version
    then (Ok true, logged s [Log ("Found commit: " +:+ message c)])
    else checkCommit w config rest version s.
Proof.
  intros Hre. simpl. unfold bind at 1, String_match. rewrite Hre. simpl.
  unfold ret at 1. by destruct (captured _ _).
Qed.

Lemma checkCommit_invalid w config c rest version s :
  regexp w (commitPattern config) = None ->
  exists e, checkCommit w config (c :: rest) version s = (Throw e, s).
Proof.
  intros Hre. simpl. unfold bind, String_match. rewrite Hre. by eexists.
Qed.

Lemma checkCommit_true_iff w config commits version s :
  fst (checkCommit w config commits version s) = Ok true <->
  exists c, c ∈ commits /\ announces w (commitPattern config) version c.
Proof.
  induction commits as [|c rest IH].
  - simpl. split; [discriminate|]. intros (c & Hc & _). by apply elem_of_nil in Hc.
  - destruct (regexp w (commitPattern config)) as [exec|] eqn:Hre.
    + rewrite (checkCommit_cons _ _ _ _ _ exec) by done.
      destruct (captured (exec (message c)) version) eqn:Hcap.
      * split; [|done]. intros _. exists c. split; [left|].
        by apply (announces_captured _ _ _ _ exec).
      * rewrite IH. split.
        -- intros (c' & Hin & Ha). exists c'. split; [by right|done].
        -- intros (c' & Hin & Ha). apply elem_of_cons in Hin as [->|Hin].
           ++ apply (announces_captured _ _ _ _ exec) in Ha; congruence.
           ++ by exists c'.
    + destruct (checkCommit_invalid w config c rest version s Hre) as [e ->].
      split; [discriminate|]. intros (c' & _ & (exec & g & Hre' & _)). congruence.
Qed.

Lemma checkCommit_first w config pre c post version s :
  (forall c', c' ∈ pre -> ~ announces w (commitPattern config) version c') ->
  announces w (commitPattern config) version c ->
  checkCommit w config (pre ++ c :: post) version s =
    (Ok true, logged s [Log ("Found commit: " +:+ message c)]).
Proof.
  intros Hpre Hc. pose proof Hc as (exec & g & Hre & _).
  induction pre as [|c0 pre IH]; simpl app;
    rewrite (checkCommit_cons _ _ _ _ _ exec) by done.
  - apply (announces_captured _ _ _ _ exec) in Hc; [|done]. by rewrite Hc.
  - destruct (captured (exec (message c0)) version) eqn:Hcap.
    + exfalso. apply (Hpre c0); [left|]. by apply (announces_captured _ _ _ _ exec).
    + apply IH. intros c' Hin. apply Hpre. by right.
Qed.

Lemma checkCommit_none w config commits version s :
  Forall (passes_over w (commitPattern config) version) commits ->
  checkCommit w config commits version s = (Ok false, s).
Proof.
  induction 1 as [|c rest (exec & Hre & Hno) _ IH]; [done|].
  rewrite (checkCommit_cons _ _ _ _ _ exec) by done.
  destruct (captured (exec (message c)) version) eqn:Hcap; [|done].
  apply captured_true in Hcap as (g & Hm & Hg). by destruct (Hno g).
Qed.

(** C3: for every list of commits [checkCommit] answers [true] exactly
    when some commit's message matches the commit pattern with its first
    captured group equal to the manifest version; the scan stops at the
    first such commit, in the order of the payload: whatever follows it,
    the answer is [true] and the only line printed names that commit.  The
    comparison is literal: with the default pattern, [Release 1.2.3] does
    not release version [v1.2.3], nor [Release v1.2.3] version [1.2.3]. *)
Theorem C3_checkCommit_first_literal_match w config commits version s :
  (fst (checkCommit w config commits version s) = Ok true <->
   exists c, c ∈ commits /\ announces w (commitPattern config) version c) /\
  (forall pre c post,
      commits = pre ++ c :: post ->
      (forall c', c' ∈ pre -> ~ announces w (commitPattern config) version c') ->
      announces w (commitPattern config) version c ->
      checkCommit w config commits version s =
        (Ok true, logged s [Log ("Found commit: " +:+ message c)])) /\
  checkCommit release_world default_config (commits_of ["Release 1.2.3"]) "v1.2.3" s
    = (Ok false, s) /\
  checkCommit release_world default_config (commits_of ["Release v1.2.3"]) "1.2.3" s
    = (Ok false, s) /\
  checkCommit release_world default_config (commits_of ["Release v1.2.3"]) "v1.2.3" s
    = (Ok true, logged s [Log "Found commit: Release v1.2.3"]).
Proof.
  split; [apply checkCommit_true_iff|].
  split; [intros pre c post ->; apply checkCommit_first|].
  repeat split.
Qed.

Lemma C3_checkCommit_first_literal_match_witness :
  checkCommit release_world default_config (commits_of release_messages) "1.2.3" initial
    = (Ok true, logged initial [Log "Found commit: Release 1.2.3"]).
Proof.
  apply (proj1 (proj2 (C3_checkCommit_first_literal_match
                         release_world default_config (commits_of release_messages)
                         "1.2.3" initial))
           (commits_of ["fix typo"]) {| message := "Release 1.2.3" |}
           (commits_of ["Release 1.2.3 again"])).
  - reflexivity.
  - intros c' Hin. apply announcesb_false.
    apply list_elem_of_singleton in Hin. subst c'. vm_compute. reflexivity.
  - apply announcesb_true. vm_compute. reflexivity.
Defined.

(** ** Child processes *)

Lemma run_unfold w dir cmd arguments s :
  let i := {| cwd := dir; command := cmd; args := arguments |} in
  run w dir cmd arguments s =
    match child w (spawned s) i with
    | SpawnError => (Throw (Error ("command failed: " +:+ cmd)), started s i)
    | Exit code stderr =>
        if decide (code = Some 0) then (Ok true, started s i)
        else (Throw (ExitError code),
              if JsString.truthy (JsString.trim stderr)
              then logged (started s i)
                     [Log ("command failed with code " +:+ show_code code);
                      Log (JsString.trim stderr)]
              else started s i)
    end.
Proof.
  intros i. unfold run, bind, console_log, emit, spawn. cbn [spawned console].
  fold i. destruct (child w (spawned s) i) as [|code stderr]; [done|].
  destruct (decide (code = Some 0)); [done|].
  destruct (JsString.truthy (JsString.trim stderr)); [|done].
  unfold throw, logged, started, having_spawned, logged. cbn.
  by rewrite <- !app_assoc.
Qed.

(** C4, as the script has it: a child that exits with code 0 makes [run]
    resolve (to [true]); a child that exits with any other code makes it
    fail with an [ExitError] that carries that code and nothing else.  The
    text the child wrote to its standard error is not part of the error:
    [run] itself prints it, trimmed, after a line that names the code, when
    something is left of it after trimming, that is, unless it is made of
    white space and line terminators only, the no-break space and the
    other ones outside ASCII included. *)
Theorem C4_exit_error_carries_code_only w dir cmd arguments s code stderr :
  let i := {| cwd := dir; command := cmd; args := arguments |} in
  child w (spawned s) i = Exit code stderr ->
  (code = Some 0 -> run w dir cmd arguments s = (Ok true, started s i)) /\
  (code <> Some 0 ->
   run w dir cmd arguments s =
     (Throw (ExitError code),
      if JsString.truthy (JsString.trim stderr)
      then logged (started s i)
             [Log ("command failed with code " +:+ show_code code);
              Log (JsString.trim stderr)]
      else started s i)).
Proof.
  intros i Hchild. rewrite run_unfold. fold i. rewrite Hchild.
  split; intros Hcode; by destruct (decide (code = Some 0)).
Qed.

Lemma C4_exit_error_carries_code_only_witness :
  run denied_world workspace "git" git_push initial =
    (Throw (ExitError (Some 1)),
     {| console := [Log "Executing: git push origin refs/tags/v1.2.3";
                    Log "command failed with code 1";
                    Log "remote: Permission denied"];
        spawned := [{| cwd := workspace; command := "git"; args := git_push |}] |}) /\
  run silent_tag_failure_world workspace "git" ["tag"; "-a"; "-m"; "v1.2.3"; "v1.2.3"]
    initial =
    (Throw (ExitError (Some 128)),
     {| console := [Log "Executing: git tag -a -m v1.2.3 v1.2.3"];
        spawned := [{| cwd := workspace; command := "git";
                       args := ["tag"; "-a"; "-m"; "v1.2.3"; "v1.2.3"] |}] |}).
Proof.
  split.
  - rewrite (proj2 (C4_exit_error_carries_code_only
                      denied_world workspace "git" git_push initial
                      (Some 1) push_stderr_denied eq_refl)) by discriminate.
    vm_compute. reflexivity.
  - rewrite (proj2 (C4_exit_error_carries_code_only
                      silent_tag_failure_world workspace "git"
                      ["tag"; "-a"; "-m"; "v1.2.3"; "v1.2.3"] initial
                      (Some 128) no_break_space_and_newline eq_refl)) by discriminate.
    vm_compute. reflexivity.
Defined.

(** Against C4 as stated: two pushes that fail with the same code and
    different texts on their standard error make [run] fail with one and
    the same [ExitError], so the error does not carry the text. *)
Lemma C4_counterexample :
  child denied_world [] git_push_invocation = Exit (Some 1) push_stderr_denied /\
  child timeout_world [] git_push_invocation = Exit (Some 1) push_stderr_timeout /\
  push_stderr_denied <> push_stderr_timeout /\
  fst (run denied_world workspace "git" git_push initial) = Throw (ExitError (Some 1)) /\
  fst (run timeout_world workspace "git" git_push initial) = Throw (ExitError (Some 1)) /\
  ~ (exists stderr_of : exn -> string,
        stderr_of (ExitError (Some 1)) = push_stderr_denied /\
        stderr_of (ExitError (Some 1)) = push_stderr_timeout).
Proof.
  split; [reflexivity|]. split; [reflexivity|]. split; [discriminate|].
  split; [vm_compute; reflexivity|]. split; [vm_compute; reflexivity|].
  intros (stderr_of & Hdenied & Htimeout).
  rewrite Hdenied in Htimeout. discriminate Htimeout.
Qed.

(** ** Tagging *)

Lemma createTag_unfold w dir config version s :
  let tag := JsString.replace_placeholder (tagName config) version in
  let note := JsString.replace_placeholder (tagMessage config) version in
  createTag w dir config version s =
    match run w dir "git" ["rev-parse"; "-q"; "--verify"; "refs/tags/" +:+ tag] s with
    | (Ok true, s') =>
        (Throw (NeutralExitError EmptyString),
         logged s' [Log ("Tag already exists: " +:+ tag)])
    | (Ok false, s') | (Throw (ExitError (Some 1)), s') =>
        (run w dir "git" ["config"; "user.name"; owner_name (tagAuthor config)] ;;
         run w dir "git" ["config"; "user.email"; owner_email (tagAuthor config)] ;;
         run w dir "git" ["tag"; "-a"; "-m"; note; tag] ;;
         run w dir "git" ["push"; "origin"; "refs/tags/" +:+ tag] ;;
         console_log ("Tag has been created successfully: " +:+ tag)) s'
    | (Throw e, s') => (Throw e, s')
    end.
Proof.
  cbv zeta. unfold createTag. unfold bind at 1, catch.
  destruct (run w dir "git" _ s) as [[[]|e] s']; try done.
  destruct e as [| | | |[[|[]|]|]|]; done.
Qed.

(** C10: when [git rev-parse] exits with code 1, [createTag] takes the tag
    to be absent and goes on with the four git commands that set the
    identity, create the tag and push it; when it exits with any other
    code but 0, or cannot be started at all, [createTag] fails with the
    error of [run] and spawns nothing else. *)
Theorem C10_rev_parse_exit_code w dir config version s :
  let tag := JsString.replace_placeholder (tagName config) version in
  let note := JsString.replace_placeholder (tagMessage config) version in
  let probe := rev_parse dir config version in
  (forall stderr,
      child w (spawned s) probe = Exit (Some 1) stderr ->
      createTag w dir config version s =
        (run w dir "git" ["config"; "user.name"; owner_name (tagAuthor config)] ;;
         run w dir "git" ["config"; "user.email"; owner_email (tagAuthor config)] ;;
         run w dir "git" ["tag"; "-a"; "-m"; note; tag] ;;
         run w dir "git" ["push"; "origin"; "refs/tags/" +:+ tag] ;;
         console_log ("Tag has been created successfully: " +:+ tag))
          (if JsString.truthy (JsString.trim stderr)
           then logged (started s probe)
                  [Log "command failed with code 1"; Log (JsString.trim stderr)]
           else started s probe)) /\
  (forall code stderr,
      child w (spawned s) probe = Exit code stderr ->
      code <> Some 0 -> code <> Some 1 ->
      createTag w dir config version s =
        (Throw (ExitError code),
         if JsString.truthy (JsString.trim stderr)
         then logged (started s probe)
                [Log ("command failed with code " +:+ show_code code);
                 Log (JsString.trim stderr)]
         else started s probe)) /\
  (child w (spawned s) probe = SpawnError ->
   createTag w dir config version s =
     (Throw (Error "command failed: git"), started s probe)).
Proof.
  cbv zeta. rewrite createTag_unfold. cbv zeta. rewrite run_unfold. cbv zeta.
  fold (rev_parse dir config version).
  split; [|split].
  - intros stderr ->. by destruct (decide _).
  - intros code stderr -> H0 H1. destruct (decide _); [done|].
    destruct code as [[|[]|]|]; done.
  - by intros ->.
Qed.

Lemma C10_rev_parse_exit_code_witness :
  (fst (createTag release_world workspace default_config "1.2.3" initial) = Ok tt /\
   (fun i => (command i, args i))
     <$> spawned (snd (createTag release_world workspace default_config "1.2.3" initial))
   = [("git", ["rev-parse"; "-q"; "--verify"; "refs/tags/v1.2.3"]);
      ("git", ["config"; "user.name"; "octocat"]);
      ("git", ["config"; "user.email"; "octocat@example.org"]);
      ("git", ["tag"; "-a"; "-m"; "v1.2.3"; "v1.2.3"]);
      ("git", ["push"; "origin"; "refs/tags/v1.2.3"])]) /\
  createTag broken_git_world workspace default_config "1.2.3" initial =
    (Throw (ExitError (Some 128)),
     {| console := [Log "Executing: git rev-parse -q --verify refs/tags/v1.2.3";
                    Log "command failed with code 128";
                    Log "fatal: not a git repository"];
        spawned := [rev_parse workspace default_config "1.2.3"] |}).
Proof.
  split.
  - rewrite (proj1 (C10_rev_parse_exit_code
                      release_world workspace default_config "1.2.3" initial)
               EmptyString eq_refl).
    vm_compute. split; reflexivity.
  - rewrite (proj1 (proj2 (C10_rev_parse_exit_code
                             broken_git_world workspace default_config "1.2.3" initial))
               (Some 128) "fatal: not a git repository" eq_refl)
      by discriminate.
    vm_compute. reflexivity.
Defined.

(** ** Tagging and publishing *)

Lemma processDirectory_unfold w dir config commits s :
  let packageFile := Path.join dir "package.json" in
  processDirectory w dir config commits s =
    match files w !! packageFile with
    | None | Some Malformed =>
        (Throw (NeutralExitError ("package file not found: " +:+ packageFile)), s)
    | Some (Document packageObj) =>
        match version_of packageObj with
        | None => (Throw (Error "missing version field!"), s)
        | Some version =>
            match checkCommit w config commits version s with
            | (Ok true, s1) =>
                (publishPackage w dir config version ;;
                 console_log "Package published.")
                  (match createTag w dir config version s1 with
                   | (Ok _, s2) => logged s2 [Log "Tag created."]
                   | (Throw e, s2) => logged s2 [LogError "Failed to create the tag: " e]
                   end)
            | (Ok false, s1) =>
                (Ok tt,
                 logged s1 [Log "No release command detected in the commit message, finishing the job."])
            | (Throw e, s1) => (Throw e, s1)
            end
        end
    end.
Proof.
  cbv zeta. unfold processDirectory. unfold bind at 1, catch at 1, readJson.
  destruct (files w !! _) as [[|packageObj]|]; try done.
  unfold ret at 1. destruct (version_of packageObj) as [version|]; [|done].
  unfold bind at 1. destruct (checkCommit _ _ _ _ _) as [[[]|e] s1]; try done.
  unfold catch, bind.
  by destruct (createTag _ _ _ _ _) as [[[]|e] s2].
Qed.

(** C6: once the commit scan has approved the release, whatever error
    [createTag] ends with (the identity cannot be set, the tag cannot be
    created or pushed, the tag exists already, [git rev-parse] breaks
    down) is caught where [createTag] is called and printed with
    [console.error]; the run goes on with [publishPackage] from there. *)
Theorem C6_tagging_failure_is_logged_and_publish_runs
    w dir config commits packageObj version s s1 s2 e :
  files w !! Path.join dir "package.json" = Some (Document packageObj) ->
  version_of packageObj = Some version ->
  checkCommit w config commits version s = (Ok true, s1) ->
  createTag w dir config version s1 = (Throw e, s2) ->
  processDirectory w dir config commits s =
    (publishPackage w dir config version ;; console_log "Package published.")
      (logged s2 [LogError "Failed to create the tag: " e]).
Proof.
  intros Hfile Hversion Hcheck Htag. rewrite processDirectory_unfold. cbv zeta.
  by rewrite Hfile, Hversion, Hcheck, Htag.
Qed.

Lemma C6_tagging_failure_is_logged_and_publish_runs_witness :
  processDirectory denied_world workspace default_config
    (commits_of release_messages) initial =
    (Ok tt,
     {| console :=
          [Log "Found commit: Release 1.2.3";
           Log "Executing: git rev-parse -q --verify refs/tags/v1.2.3";
           Log "Executing: git config user.name octocat";
           Log "Executing: git config user.email octocat@example.org";
           Log "Executing: git tag -a -m v1.2.3 v1.2.3";
           Log "Executing: git push origin refs/tags/v1.2.3";
           Log "command failed with code 1";
           Log "remote: Permission denied";
           LogError "Failed to create the tag: " (ExitError (Some 1));
           Log "Executing: yarn publish --non-interactive --new-version 1.2.3";
           Log "Version has been published successfully: 1.2.3";
           Log "Package published."];
        spawned :=
          [rev_parse workspace default_config "1.2.3";
           {| cwd := workspace; command := "git";
              args := ["config"; "user.name"; "octocat"] |};
           {| cwd := workspace; command := "git";
              args := ["config"; "user.email"; "octocat@example.org"] |};
           {| cwd := workspace; command := "git";
              args := ["tag"; "-a"; "-m"; "v1.2.3"; "v1.2.3"] |};
           git_push_invocation;
           {| cwd := workspace; command := "yarn";
              args := ["publish"; "--non-interactive"; "--new-version"; "1.2.3"] |}] |}) /\
  processDirectory tagged_world workspace default_config
    (commits_of release_messages) initial =
    (Ok tt,
     {| console :=
          [Log "Found commit: Release 1.2.3";
           Log "Executing: git rev-parse -q --verify refs/tags/v1.2.3";
           Log "Tag already exists: v1.2.3";
           LogError "Failed to create the tag: " (NeutralExitError EmptyString);
           Log "Executing: yarn publish --non-interactive --new-version 1.2.3";
           Log "Version has been published successfully: 1.2.3";
           Log "Package published."];
        spawned :=
          [rev_parse workspace default_config "1.2.3";
           {| cwd := workspace; command := "yarn";
              args := ["publish"; "--non-interactive"; "--new-version"; "1.2.3"] |}] |}).
Proof.
  split.
  - rewrite (C6_tagging_failure_is_logged_and_publish_runs
               denied_world workspace default_config (commits_of release_messages)
               (JPackage (Some "1.2.3")) "1.2.3" initial
               (logged initial [Log "Found commit: Release 1.2.3"])
               (snd (createTag denied_world workspace default_config "1.2.3"
                       (logged initial [Log "Found commit: Release 1.2.3"])))
               (ExitError (Some 1))).
    + vm_compute. reflexivity.
    + vm_compute. reflexivity.
    + reflexivity.
    + vm_compute. reflexivity.
    + vm_compute. reflexivity.
  - rewrite (C6_tagging_failure_is_logged_and_publish_runs
               tagged_world workspace default_config (commits_of release_messages)
               (JPackage (Some "1.2.3")) "1.2.3" initial
               (logged initial [Log "Found commit: Release 1.2.3"])
               (snd (createTag tagged_world workspace default_config "1.2.3"
                       (logged initial [Log "Found commit: Release 1.2.3"])))
               (NeutralExitError EmptyString)).
    + vm_compute. reflexivity.
    + vm_compute. reflexivity.
    + reflexivity.
    + vm_compute. reflexivity.
    + vm_compute. reflexivity.
Defined.

(** ** The run as a whole *)

Lemma placeholderEnv_state w name defaultValue s :
  placeholderEnv w name defaultValue s = (fst (placeholderEnv w name defaultValue initial), s).
Proof.
  unfold placeholderEnv. destruct (getEnv w name) as [str|]; [|done].
  destruct (JsString.truthy str); [|done]. by destruct (JsString.includes "%s" str).
Qed.

Lemma main_config_state w o s :
  main_config w o s = (fst (main_config w o initial), s).
Proof.
  unfold main_config, bind.
  rewrite (placeholderEnv_state w "TAG_NAME" _ s).
  destruct (placeholderEnv w "TAG_NAME" "v%s" initial) as [[t|e] s1]; [|done].
  rewrite (placeholderEnv_state w "TAG_MESSAGE" _ s).
  rewrite (placeholderEnv_state w "TAG_MESSAGE" _ s1).
  by destruct (fst (placeholderEnv w "TAG_MESSAGE" "v%s" initial)).
Qed.

Lemma main_config_pattern w o s config :
  fst (main_config w o s) = Ok config -> commitPattern config = main_commitPattern w.
Proof.
  unfold main_config, bind.
  destruct (placeholderEnv w "TAG_NAME" "v%s" s) as [[t|e] s1]; [|done].
  destruct (placeholderEnv w "TAG_MESSAGE" "v%s" s1) as [[m|e] s2]; [|done].
  by intros [= <-].
Qed.

Lemma main_event w e s :
  files w !! main_eventFile w = Some (Document (JEvent e)) ->
  main w s =
    if bool_decide (ref e = Some ("refs/heads/" +:+ main_defaultBranch w)) then
      match fst (main_config w (owner e) initial) with
      | Ok config => processDirectory w (main_dir w) config (commits e) s
      | Throw x => (Throw x, s)
      end
    else
      (Throw (NeutralExitError EmptyString),
       logged s [Log ("Ref " +:+ show (ref e) +:+ " is not the default branch: "
                      +:+ main_defaultBranch w +:+ ", you must run this action on "
                      +:+ main_defaultBranch w +:+ " branch.")]).
Proof.
  intros Hfile. unfold main, bind at 1, readJson. rewrite Hfile. cbn [ret get_ref].
  unfold bind at 1, ret at 1.
  destruct (bool_decide _); cbn [negb]; [|done].
  unfold bind at 1, get_owner, ret at 1. unfold bind at 1.
  rewrite main_config_state.
  destruct (fst (main_config w (owner e) initial)); [|done].
  by unfold bind, get_commits, ret.
Qed.

(** C8: when the ref of the event is not [refs/heads/] followed by the
    default branch (which is [master] unless [DEFAULT_BRANCH] says
    otherwise), the run ends with exit code 78; it has spawned no child and
    printed the one line about the ref, whatever the templates, the
    commits and the manifest are. *)
Theorem C8_other_branch_is_neutral w e :
  files w !! main_eventFile w = Some (Document (JEvent e)) ->
  ref e <> Some ("refs/heads/" +:+ main_defaultBranch w) ->
  script w =
    (78, {| console :=
              [Log ("Ref " +:+ show (ref e) +:+ " is not the default branch: "
                    +:+ main_defaultBranch w +:+ ", you must run this action on "
                    +:+ main_defaultBranch w +:+ " branch.")];
            spawned := [] |}) /\
  (truthy (getEnv w "DEFAULT_BRANCH") = false -> main_defaultBranch w = "master").
Proof.
  intros Hfile Href. split.
  - unfold script. rewrite (main_event w e) by done.
    by rewrite bool_decide_eq_false_2.
  - unfold main_defaultBranch, or_default, truthy.
    destruct (getEnv w "DEFAULT_BRANCH") as [v|]; [|done]. by intros ->.
Qed.

Lemma C8_other_branch_is_neutral_witness :
  script branch_world =
    (78, {| console :=
              [Log "Ref refs/heads/develop is not the default branch: master, you must run this action on master branch."];
            spawned := [] |}).
Proof.
  apply (C8_other_branch_is_neutral branch_world
           {| ref := Some "refs/heads/develop"; owner := octocat;
              commits := commits_of release_messages |}).
  - vm_compute. reflexivity.
  - vm_compute. discriminate.
Defined.

(** C7, as the script has it: when the ref of the event is the default
    branch, the templates [TAG_NAME] and [TAG_MESSAGE] are accepted, the
    manifest has a version and the commit pattern, a well-formed regular
    expression, matches no commit message with that version as its first
    captured group, the run ends with exit code 0, having spawned no child
    and printed only that there is nothing to release. *)
Theorem C7_no_release_commit_is_a_clean_exit w e config version :
  files w !! main_eventFile w = Some (Document (JEvent e)) ->
  ref e = Some ("refs/heads/" +:+ main_defaultBranch w) ->
  fst (main_config w (owner e) initial) = Ok config ->
  files w !! Path.join (main_dir w) "package.json"
    = Some (Document (JPackage (Some version))) ->
  Forall (passes_over w (main_commitPattern w) version) (commits e) ->
  script w =
    (0, {| console :=
             [Log "No release command detected in the commit message, finishing the job."];
           spawned := [] |}).
Proof.
  intros Hfile Href Hconfig Hpackage Hnone.
  unfold script. rewrite (main_event w e) by done.
  rewrite bool_decide_eq_true_2, Hconfig by done.
  rewrite processDirectory_unfold. cbv zeta. rewrite Hpackage. cbn [version_of].
  rewrite checkCommit_none; [done|].
  by rewrite (main_config_pattern w (owner e) initial).
Qed.

Lemma C7_no_release_commit_is_a_clean_exit_witness :
  script quiet_world =
    (0, {| console :=
             [Log "No release command detected in the commit message, finishing the job."];
           spawned := [] |}).
Proof.
  apply (C7_no_release_commit_is_a_clean_exit quiet_world
           {| ref := Some "refs/heads/master"; owner := octocat;
              commits := commits_of quiet_messages |}
           default_config "2.0.0").
  - vm_compute. reflexivity.
  - vm_compute. reflexivity.
  - vm_compute. reflexivity.
  - vm_compute. reflexivity.
  - repeat constructor; apply passes_overb_true; vm_compute; reflexivity.
Defined.

(** Against C7 as stated: the ref is the default branch, the manifest has
    the version 2.0.0 and no commit releases it, yet the run ends with
    exit code 1, because [TAG_NAME] lacks the placeholder. *)
Lemma C7_counterexample :
  files quiet_world_bad_template !! main_eventFile quiet_world_bad_template
    = Some (push_event "refs/heads/master" quiet_messages) /\
  main_defaultBranch quiet_world_bad_template = "master" /\
  files quiet_world_bad_template
    !! Path.join (main_dir quiet_world_bad_template) "package.json"
    = Some (manifest "2.0.0") /\
  Forall (passes_over quiet_world_bad_template
            (main_commitPattern quiet_world_bad_template) "2.0.0")
    (commits_of quiet_messages) /\
  script quiet_world_bad_template =
    (1, {| console := [Log "missing placeholder in variable: TAG_NAME"];
           spawned := [] |}) /\
  fst (script quiet_world_bad_template) <> 0.
Proof.
  split; [vm_compute; reflexivity|]. split; [vm_compute; reflexivity|].
  split; [vm_compute; reflexivity|].
  split; [repeat constructor; apply passes_overb_true; vm_compute; reflexivity|].
  split; [vm_compute; reflexivity|]. vm_compute. discriminate.
Qed.

(** A commit pattern that is not a regular expression is fatal as soon as
    there is a commit to examine. *)
Example ill_formed_pattern_is_fatal :
  script quiet_world_bad_pattern =
    (1, {| console := [Log "Invalid regular expression: /(/: Unterminated group"];
           spawned := [] |}).
Proof. vm_compute. reflexivity. Qed.

(** C1, as the script has it: when the run gets as far as the manifest (the
    ref of the event is the default branch and the templates are accepted)
    and [package.json] is missing or is not JSON, the run ends with the
    neutral exit code 78, by a [NeutralExitError] that names the file,
    having printed nothing and spawned no child. *)
Theorem C1_unreadable_manifest_is_neutral w e config :
  files w !! main_eventFile w = Some (Document (JEvent e)) ->
  ref e = Some ("refs/heads/" +:+ main_defaultBranch w) ->
  fst (main_config w (owner e) initial) = Ok config ->
  files w !! Path.join (main_dir w) "package.json" = None \/
  files w !! Path.join (main_dir w) "package.json" = Some Malformed ->
  script w = (78, initial) /\
  fst (main w initial) =
    Throw (NeutralExitError
             ("package file not found: " +:+ Path.join (main_dir w) "package.json")).
Proof.
  intros Hfile Href Hconfig Hpackage.
  unfold script. rewrite (main_event w e) by done.
  rewrite bool_decide_eq_true_2, Hconfig by done.
  rewrite processDirectory_unfold. cbv zeta.
  by destruct Hpackage as [-> | ->].
Qed.

Lemma C1_unreadable_manifest_is_neutral_witness :
  script malformed_manifest_world = (78, initial) /\
  fst (main malformed_manifest_world initial) =
    Throw (NeutralExitError "package file not found: /github/workspace/package.json").
Proof.
  apply (C1_unreadable_manifest_is_neutral malformed_manifest_world
           {| ref := Some "refs/heads/master"; owner := octocat;
              commits := commits_of release_messages |}
           default_config).
  - vm_compute. reflexivity.
  - vm_compute. reflexivity.
  - vm_compute. reflexivity.
  - right. vm_compute. reflexivity.
Defined.

(** Against C1 as stated: with no [package.json] in the workspace, and with
    one that is not JSON, the exit code is 78, not 1. *)
Lemma C1_counterexample :
  files missing_manifest_world
    !! Path.join (main_dir missing_manifest_world) "package.json" = None /\
  script missing_manifest_world = (78, initial) /\
  files malformed_manifest_world
    !! Path.join (main_dir malformed_manifest_world) "package.json" = Some Malformed /\
  script malformed_manifest_world = (78, initial) /\
  fst (script missing_manifest_world) <> 1 /\
  fst (script malformed_manifest_world) <> 1.
Proof.
  repeat split; try (vm_compute; reflexivity); vm_compute; discriminate.
Qed.

(** ** Configuration from the environment *)

Lemma INPUT_ne name : "INPUT_" +:+ name <> name.
Proof.
  intros H. apply (f_equal String.length) in H.
  change (String.length ("INPUT_" +:+ name)) with (6 + String.length name)%nat in H.
  lia.
Qed.

Lemma getEnv_fallback w name :
  truthy (env w !! name) = false -> getEnv w name = env w !! ("INPUT_" +:+ name).
Proof. unfold getEnv, or_else. by intros ->. Qed.

Lemma or_default_fallback w name literal :
  falls_back w name (or_default (getEnv w name) literal).
Proof.
  intros v Hplain Hinput Hv. rewrite getEnv_fallback, Hinput by done.
  unfold or_default. by rewrite Hv.
Qed.

Lemma placeholderEnv_fallback w name defaultValue s value :
  fst (placeholderEnv w name defaultValue s) = Ok value -> falls_back w name value.
Proof.
  intros Hok v Hplain Hinput Hv. revert Hok. unfold placeholderEnv.
  rewrite getEnv_fallback, Hinput, Hv by done. cbn.
  destruct (JsString.includes "%s" v); cbn; congruence.
Qed.

(** C5, as the script has it: the seven options read through [getEnv]
    ([COMMIT_PATTERN], [TAG_NAME], [TAG_MESSAGE], [COMMIT_USER],
    [COMMIT_EMAIL], [PUBLISH_WITH], [DEFAULT_BRANCH]) take the value of the
    [INPUT_]-prefixed variable when the plain variable is unset or empty.
    [GITHUB_WORKSPACE] and [GITHUB_EVENT_PATH] are read from the plain
    variable alone: the directory and the event file depend on no other
    variable, the [INPUT_]-prefixed ones included; they are the value of
    the plain variable when it is set and not empty, and otherwise the
    literals [/github/workspace] and [/github/workflow/event.json]. *)
Theorem C5_input_fallback_for_getEnv_options w :
  (forall name,
      truthy (env w !! name) = false ->
      getEnv w name = env w !! ("INPUT_" +:+ name)) /\
  falls_back w "DEFAULT_BRANCH" (main_defaultBranch w) /\
  falls_back w "COMMIT_PATTERN" (main_commitPattern w) /\
  (forall o s config,
      fst (main_config w o s) = Ok config ->
      falls_back w "TAG_NAME" (tagName config) /\
      falls_back w "TAG_MESSAGE" (tagMessage config) /\
      falls_back w "COMMIT_USER" (owner_name (tagAuthor config)) /\
      falls_back w "COMMIT_EMAIL" (owner_email (tagAuthor config)) /\
      falls_back w "PUBLISH_WITH" (publishWith config)) /\
  (forall w',
      env w' !! "GITHUB_WORKSPACE" = env w !! "GITHUB_WORKSPACE" ->
      main_dir w' = main_dir w) /\
  (forall w',
      env w' !! "GITHUB_EVENT_PATH" = env w !! "GITHUB_EVENT_PATH" ->
      main_eventFile w' = main_eventFile w) /\
  (forall v,
      env w !! "GITHUB_WORKSPACE" = Some v -> JsString.truthy v = true ->
      main_dir w = v) /\
  (truthy (env w !! "GITHUB_WORKSPACE") = false ->
   main_dir w = "/github/workspace") /\
  (forall v,
      env w !! "GITHUB_EVENT_PATH" = Some v -> JsString.truthy v = true ->
      main_eventFile w = v) /\
  (truthy (env w !! "GITHUB_EVENT_PATH") = false ->
   main_eventFile w = "/github/workflow/event.json").
Proof.
  assert (forall a literal v,
             a = Some v -> JsString.truthy v = true -> or_default a literal = v)
    as Hset by (intros a literal v -> Hv; unfold or_default; by rewrite Hv).
  assert (forall a literal, truthy a = false -> or_default a literal = literal)
    as Hunset.
  { intros [v|] literal; [|done]. unfold or_default. cbn. by intros ->. }
  split; [apply getEnv_fallback|].
  split; [apply or_default_fallback|].
  split; [apply or_default_fallback|].
  split; [|split; [|split; [|split; [apply Hset|split; [apply Hunset|
    split; [apply Hset|apply Hunset]]]]]].
  - intros o s config. unfold main_config, bind.
    destruct (placeholderEnv w "TAG_NAME" "v%s" s) as [[t|x] s1] eqn:Ht; [|done].
    destruct (placeholderEnv w "TAG_MESSAGE" "v%s" s1) as [[m|x] s2] eqn:Hm; [|done].
    intros [= <-]. cbn.
    split; [apply (placeholderEnv_fallback w _ "v%s" s); by rewrite Ht|].
    split; [apply (placeholderEnv_fallback w _ "v%s" s1); by rewrite Hm|].
    repeat split; apply or_default_fallback.
  - intros w' H. unfold main_dir. by rewrite H.
  - intros w' H. unfold main_eventFile. by rewrite H.
Qed.

Lemma C5_input_fallback_for_getEnv_options_witness :
  (forall config,
      fst (main_config input_npm_world octocat initial) = Ok config ->
      publishWith config = "npm") /\
  main_dir input_paths_world = main_dir release_world /\
  main_dir plain_paths_world = "/work" /\
  main_dir input_paths_world = "/github/workspace" /\
  main_eventFile plain_paths_world = "/work/event.json" /\
  main_eventFile input_paths_world = "/github/workflow/event.json".
Proof.
  split; [|split; [|split; [|split; [|split]]]].
  - intros config Hconfig.
    apply (proj2 (proj2 (proj2 (proj2
             (proj1 (proj2 (proj2 (proj2
                (C5_input_fallback_for_getEnv_options input_npm_world))))
                octocat initial config Hconfig)))));
      vm_compute; reflexivity.
  - apply (proj1 (proj2 (proj2 (proj2 (proj2
             (C5_input_fallback_for_getEnv_options release_world)))))).
    vm_compute. reflexivity.
  - apply (proj1 (proj2 (proj2 (proj2 (proj2 (proj2 (proj2
             (C5_input_fallback_for_getEnv_options plain_paths_world))))))) "/work");
      vm_compute; reflexivity.
  - apply (proj1 (proj2 (proj2 (proj2 (proj2 (proj2 (proj2 (proj2
             (C5_input_fallback_for_getEnv_options input_paths_world))))))))).
    vm_compute. reflexivity.
  - apply (proj1 (proj2 (proj2 (proj2 (proj2 (proj2 (proj2 (proj2 (proj2
             (C5_input_fallback_for_getEnv_options plain_paths_world)))))))))
             "/work/event.json");
      vm_compute; reflexivity.
  - apply (proj2 (proj2 (proj2 (proj2 (proj2 (proj2 (proj2 (proj2 (proj2
             (C5_input_fallback_for_getEnv_options input_paths_world)))))))))).
    vm_compute. reflexivity.
Defined.

(** Against C5 as stated: with [GITHUB_WORKSPACE] and [GITHUB_EVENT_PATH]
    unset and their [INPUT_]-prefixed variables set, the script still takes
    the literal defaults, and fails for want of the event file there. *)
Lemma C5_counterexample :
  env input_paths_world !! "GITHUB_WORKSPACE" = None /\
  env input_paths_world !! "INPUT_GITHUB_WORKSPACE" = Some "/work" /\
  main_dir input_paths_world = "/github/workspace" /\
  env input_paths_world !! "GITHUB_EVENT_PATH" = None /\
  env input_paths_world !! "INPUT_GITHUB_EVENT_PATH" = Some "/work/event.json" /\
  main_eventFile input_paths_world = "/github/workflow/event.json" /\
  script input_paths_world =
    (1, {| console :=
             [Log "ENOENT: no such file or directory, open '/github/workflow/event.json'"];
           spawned := [] |}) /\
  main_dir input_paths_world <> "/work" /\
  main_eventFile input_paths_world <> "/work/event.json".
Proof.
  repeat split; try (vm_compute; reflexivity); vm_compute; discriminate.
Qed.

(** C9: an option, [TAG_NAME] or [TAG_MESSAGE], that [getEnv] finds set to
    the empty string is treated as one that it does not find at all: the
    default template is used and no error is raised, so that with both
    options empty or absent [main] builds its configuration with [v%s]
    twice.  The missing-placeholder error is raised exactly when the value
    found is not empty and does not contain the placeholder.  The same
    holds of the variables: a plain variable set to the empty string
    counts as unset, and gives the default template when the
    [INPUT_]-prefixed variable is unset or empty too. *)
Theorem C9_empty_template_is_absent w name defaultValue s :
  (getEnv w name = Some EmptyString ->
   placeholderEnv w name defaultValue s = (Ok defaultValue, s)) /\
  (getEnv w name = None ->
   placeholderEnv w name defaultValue s = (Ok defaultValue, s)) /\
  ((exists e, fst (placeholderEnv w name defaultValue s) = Throw e) <->
   (exists str, getEnv w name = Some str /\
                JsString.truthy str = true /\
                JsString.includes "%s" str = false)) /\
  (forall o,
      truthy (getEnv w "TAG_NAME") = false ->
      truthy (getEnv w "TAG_MESSAGE") = false ->
      exists config,
        main_config w o s = (Ok config, s) /\
        tagName config = "v%s" /\ tagMessage config = "v%s") /\
  (env w !! name = Some EmptyString ->
   placeholderEnv w name defaultValue s =
   placeholderEnv (with_env (delete name) w) name defaultValue s) /\
  (env w !! name = Some EmptyString ->
   truthy (env w !! ("INPUT_" +:+ name)) = false ->
   placeholderEnv w name defaultValue s = (Ok defaultValue, s)).
Proof.
  assert (forall n d s', truthy (getEnv w n) = false ->
            placeholderEnv w n d s' = (Ok d, s')) as Hfalsy.
  { intros n d s'. unfold placeholderEnv, truthy.
    destruct (getEnv w n) as [v|]; [|done]. by intros ->. }
  split; [intros H; apply Hfalsy; by rewrite H|].
  split; [intros H; apply Hfalsy; by rewrite H|].
  split; [|split; [|split]].
  - unfold placeholderEnv. destruct (getEnv w name) as [str|].
    + destruct (JsString.truthy str) eqn:Htruthy; cbn.
      * destruct (JsString.includes "%s" str) eqn:Hincl; cbn.
        -- split; [by intros [e [=]]|]. intros (? & [= <-] & _ & ?). congruence.
        -- split; [|by eexists]. intros _. by exists str.
      * split; [by intros [e [=]]|]. intros (? & [= <-] & ? & _). congruence.
    + split; [by intros [e [=]]|]. by intros (? & [=] & _).
  - intros o Hname Hmessage. unfold main_config, bind.
    rewrite (Hfalsy "TAG_NAME") by done. rewrite (Hfalsy "TAG_MESSAGE") by done.
    by eexists.
  - intros Hempty. unfold placeholderEnv, getEnv, or_else. cbn [with_env env].
    rewrite lookup_delete_eq, Hempty.
    by rewrite lookup_delete_ne by (intros H; by apply (INPUT_ne name)).
  - intros Hempty Hinput. apply Hfalsy. unfold getEnv, or_else.
    by rewrite Hempty.
Qed.

Lemma C9_empty_template_is_absent_witness :
  placeholderEnv empty_input_tag_name_world "TAG_NAME" "v%s" initial
    = (Ok "v%s", initial) /\
  placeholderEnv release_world "TAG_NAME" "v%s" initial = (Ok "v%s", initial) /\
  (exists config,
      main_config empty_tag_name_world octocat initial = (Ok config, initial) /\
      tagName config = "v%s" /\ tagMessage config = "v%s") /\
  placeholderEnv empty_tag_name_world "TAG_NAME" "v%s" initial =
  placeholderEnv (with_env (delete "TAG_NAME") empty_tag_name_world)
    "TAG_NAME" "v%s" initial /\
  placeholderEnv empty_tag_name_world "TAG_NAME" "v%s" initial
    = (Ok "v%s", initial).
Proof.
  split; [|split; [|split; [|split]]].
  - apply (proj1 (C9_empty_template_is_absent
                    empty_input_tag_name_world "TAG_NAME" "v%s" initial)).
    vm_compute. reflexivity.
  - apply (proj1 (proj2 (C9_empty_template_is_absent
                           release_world "TAG_NAME" "v%s" initial))).
    vm_compute. reflexivity.
  - apply (proj1 (proj2 (proj2 (proj2 (C9_empty_template_is_absent
                                         empty_tag_name_world "TAG_NAME" "v%s" initial))))
             octocat);
      vm_compute; reflexivity.
  - apply (proj1 (proj2 (proj2 (proj2 (proj2 (C9_empty_template_is_absent
                                         empty_tag_name_world "TAG_NAME" "v%s" initial)))))).
    vm_compute. reflexivity.
  - apply (proj2 (proj2 (proj2 (proj2 (proj2 (C9_empty_template_is_absent
                                         empty_tag_name_world "TAG_NAME" "v%s" initial))))));
      vm_compute; reflexivity.
Defined.

(** A plain variable set to the empty string leaves the choice to the
    [INPUT_]-prefixed one, whose value is then checked like any other. *)
Example empty_variable_falls_through_to_input :
  getEnv empty_tag_name_alias_world "TAG_NAME" = Some "release" /\
  placeholderEnv empty_tag_name_alias_world "TAG_NAME" "v%s" initial =
    (Throw (Error "missing placeholder in variable: TAG_NAME"), initial) /\
  getEnv empty_tag_name_alias_ok_world "TAG_NAME" = Some "release-%s" /\
  placeholderEnv empty_tag_name_alias_ok_world "TAG_NAME" "v%s" initial =
    (Ok "release-%s", initial).
Proof. repeat split; vm_compute; reflexivity. Qed.

(** ** Publishing *)

Lemma publishPackage_unsupported w dir config version s :
  publishWith config <> "yarn" -> publishWith config <> "npm" ->
  publishPackage w dir config version s =
    (Throw (Error ("Unsupported publish type: " +:+ publishWith config)), s).
Proof.
  intros Hyarn Hnpm. unfold publishPackage, bind.
  by rewrite !decide_False by done.
Qed.

(** C2 on the script: with [PUBLISH_WITH] set to [skip], the strategy the
    README offers for tagging without publishing, [publishPackage] spawns
    no child but throws [Unsupported publish type: skip]; the run, which
    has created and pushed the tag, ends with exit code 1. *)
Theorem C2_skip_strategy_is_rejected :
  or_default (getEnv skip_world "PUBLISH_WITH") "yarn" = "skip" /\
  (forall s,
      publishPackage skip_world workspace
        {| commitPattern := "^(?:Release|Version) (\S+)"; tagName := "v%s";
           tagMessage := "v%s"; tagAuthor := octocat; publishWith := "skip" |}
        "1.2.3" s
      = (Throw (Error "Unsupported publish type: skip"), s)) /\
  fst (script skip_world) = 1 /\
  last (console (snd (script skip_world))) = Some (Log "Unsupported publish type: skip") /\
  (fun i => (command i, args i)) <$> spawned (snd (script skip_world))
  = [("git", ["rev-parse"; "-q"; "--verify"; "refs/tags/v1.2.3"]);
     ("git", ["config"; "user.name"; "octocat"]);
     ("git", ["config"; "user.email"; "octocat@example.org"]);
     ("git", ["tag"; "-a"; "-m"; "v1.2.3"; "v1.2.3"]);
     ("git", ["push"; "origin"; "refs/tags/v1.2.3"])].
Proof.
  split; [vm_compute; reflexivity|].
  split; [intros s; by apply publishPackage_unsupported|].
  repeat split; vm_compute; reflexivity.
Qed.

(** ** Further properties of the script *)

Lemma run_cases w dir cmd arguments s :
  let i := {| cwd := dir; command := cmd; args := arguments |} in
  exists r lines,
    run w dir cmd arguments s = (r, logged (started s i) lines) /\
    (r = Ok true \/ r = Throw (Error ("command failed: " +:+ cmd)) \/
     exists code, code <> Some 0 /\ r = Throw (ExitError code)).
Proof.
  intros i. rewrite run_unfold. fold i.
  destruct (child w (spawned s) i) as [|code stderr].
  - exists (Throw (Error ("command failed: " +:+ cmd))), [].
    split; [|by right; left]. unfold logged. cbn. by rewrite app_nil_r.
  - destruct (decide (code = Some 0)).
    + exists (Ok true), []. split; [|by left]. unfold logged. cbn. by rewrite app_nil_r.
    + destruct (JsString.truthy _).
      * eexists _, _. split; [done|]. right; right. by exists code.
      * exists (Throw (ExitError code)), []. split; [|right; right; by exists code].
        unfold logged. cbn. by rewrite app_nil_r.
Qed.

Lemma run_spawned w dir cmd arguments s :
  spawned (snd (run w dir cmd arguments s)) =
  spawned s ++ [{| cwd := dir; command := cmd; args := arguments |}].
Proof. by destruct (run_cases w dir cmd arguments s) as (r & lines & -> & _). Qed.

(** X1: whatever the child does, [run] spawns exactly one child, the one
    it was asked for, keeps what was printed before and prints the command
    line first. *)
Theorem run_spawns_one_child w dir cmd arguments s :
  let i := {| cwd := dir; command := cmd; args := arguments |} in
  spawned (snd (run w dir cmd arguments s)) = spawned s ++ [i] /\
  exists lines,
    console (snd (run w dir cmd arguments s)) =
      console s ++ Log ("Executing: " +:+ cmd +:+ " " +:+ JsString.join " " arguments) :: lines.
Proof.
  intros i. destruct (run_cases w dir cmd arguments s) as (r & lines & -> & _).
  split; [done|]. exists lines. cbn. by rewrite <- app_assoc.
Qed.

Lemma run_ok w dir cmd arguments s b s' :
  run w dir cmd arguments s = (Ok b, s') ->
  exists stderr,
    child w (spawned s) {| cwd := dir; command := cmd; args := arguments |}
      = Exit (Some 0) stderr.
Proof.
  rewrite run_unfold. cbv zeta. destruct (child w _ _) as [|code stderr]; [done|].
  destruct (decide (code = Some 0)) as [->|]; [|done]. by exists stderr.
Qed.

Lemma checkCommit_effects w config commits version s :
  exists r, (checkCommit w config commits version s = (r, s) /\ r <> Ok true) \/
  exists c, c ∈ commits /\
    checkCommit w config commits version s =
      (Ok true, logged s [Log ("Found commit: " +:+ message c)]).
Proof.
  induction commits as [|c rest IH].
  - exists (Ok false). by left.
  - destruct (regexp w (commitPattern config)) as [exec|] eqn:Hre.
    + rewrite (checkCommit_cons _ _ _ _ _ exec) by done.
      destruct (captured _ _).
      * exists (Ok true). right. exists c. split; [left|done].
      * destruct IH as [r [[H1 H2]|(c' & Hin & H)]]; exists r.
        -- by left.
        -- right. exists c'. split; [by right|done].
    + destruct (checkCommit_invalid w config c rest version s Hre) as [e ->].
      exists (Throw e). by left.
Qed.

Lemma run_never_false w dir cmd arguments s s' :
  run w dir cmd arguments s <> (Ok false, s').
Proof.
  destruct (run_cases w dir cmd arguments s)
    as (r & lines & -> & [->|[->|(c & _ & ->)]]);
    discriminate.
Qed.

Lemma tagging_steps_prefix w dir config version s1 :
  let tag := JsString.replace_placeholder (tagName config) version in
  let note := JsString.replace_placeholder (tagMessage config) version in
  let steps :=
    (run w dir "git" ["config"; "user.name"; owner_name (tagAuthor config)] ;;
     run w dir "git" ["config"; "user.email"; owner_email (tagAuthor config)] ;;
     run w dir "git" ["tag"; "-a"; "-m"; note; tag] ;;
     run w dir "git" ["push"; "origin"; "refs/tags/" +:+ tag] ;;
     console_log ("Tag has been created successfully: " +:+ tag)) in
  exists m,
    (1 <= m <= 4)%nat /\
    spawned (snd (steps s1)) =
      spawned s1 ++ take m (drop 1 (tag_commands dir config version)) /\
    (fst (steps s1) = Ok tt -> m = 4%nat).
Proof.
  cbv zeta. unfold tag_commands. cbn [drop]. unfold bind.
  run_step run_spawned run_never_false;
    [|exists 1%nat; cbn; rewrite Hspawned; repeat split; [lia..|done]].
  run_step run_spawned run_never_false;
    [|exists 2%nat; cbn; rewrite Hspawned0, Hspawned, <- app_assoc;
      repeat split; [lia..|done]].
  run_step run_spawned run_never_false;
    [|exists 3%nat; cbn; rewrite Hspawned1, Hspawned0, Hspawned, <- !app_assoc;
      repeat split; [lia..|done]].
  run_step run_spawned run_never_false; exists 4%nat; cbn;
    rewrite Hspawned2, Hspawned1, Hspawned0, Hspawned, <- !app_assoc;
    repeat split; lia.
Qed.

Lemma createTag_prefix w dir config version s :
  exists n,
    (1 <= n <= 5)%nat /\
    spawned (snd (createTag w dir config version s)) =
      spawned s ++ take n (tag_commands dir config version) /\
    (fst (createTag w dir config version s) = Ok tt -> n = 5%nat).
Proof.
  rewrite createTag_unfold. cbv zeta.
  pose proof (run_spawned w dir "git"
    ["rev-parse"; "-q"; "--verify";
     "refs/tags/" +:+ JsString.replace_placeholder (tagName config) version] s) as Hprobe.
  fold (rev_parse dir config version) in Hprobe.
  destruct (run w dir "git" _ s) as [[[]|e] s1] eqn:Hrun; cbn [snd] in Hprobe.
  - exists 1%nat. cbn. rewrite Hprobe. repeat split; [lia..|done].
  - by destruct (run_never_false _ _ _ _ _ _ Hrun).
  - destruct e as [| | | |[[|[]|]|]|];
      try (exists 1%nat; cbn; rewrite Hprobe; repeat split; [lia..|done]).
    destruct (tagging_steps_prefix w dir config version s1) as (m & Hm & Hs & Hok).
    cbv zeta in Hs, Hok. exists (S m). rewrite Hs, Hprobe, <- app_assoc.
    repeat split; [lia..|]. intros H. by rewrite Hok.
Qed.

(** X3: [createTag] spawns between one and five children, always the
    first so many of the same five git commands, in the same order and in
    the directory given; it succeeds only when it has run all five. *)
Theorem createTag_runs_a_prefix w dir config version s :
  exists n,
    (1 <= n <= 5)%nat /\
    spawned (snd (createTag w dir config version s)) =
      spawned s ++ take n (tag_commands dir config version) /\
    (fst (createTag w dir config version s) = Ok tt -> n = 5%nat).
Proof. apply createTag_prefix. Qed.

(** X4: when [git rev-parse] exits with code 0 the tag is there already:
    [createTag] prints so, runs no other command and ends with a
    [NeutralExitError]. *)
Theorem createTag_existing_tag w dir config version s stderr :
  child w (spawned s) (rev_parse dir config version) = Exit (Some 0) stderr ->
  createTag w dir config version s =
    (Throw (NeutralExitError EmptyString),
     logged (started s (rev_parse dir config version))
       [Log ("Tag already exists: "
             +:+ JsString.replace_placeholder (tagName config) version)]).
Proof.
  intros Hchild. rewrite createTag_unfold. cbv zeta. rewrite run_unfold. cbv zeta.
  fold (rev_parse dir config version). by rewrite Hchild.
Qed.

Lemma publishPackage_unfold w dir config version s :
  publishPackage w dir config version s =
    match publish_command dir config version with
    | None => (Throw (Error ("Unsupported publish type: " +:+ publishWith config)), s)
    | Some i =>
        match run w (cwd i) (command i) (args i) s with
        | (Ok _, s') =>
            (Ok tt, logged s' [Log ("Version has been published successfully: " +:+ version)])
        | (Throw e, s') => (Throw e, s')
        end
    end.
Proof.
  unfold publishPackage, publish_command, bind.
  destruct (decide (publishWith config = "yarn")).
  { cbn [cwd command args]. by destruct (run _ _ _ _ _) as [[?|?] ?]. }
  destruct (decide (publishWith config = "npm")); [|done].
  cbn [cwd command args]. by destruct (run _ _ _ _ _) as [[?|?] ?].
Qed.

Lemma publishPackage_spawned w dir config version s :
  spawned (snd (publishPackage w dir config version s)) =
  spawned s ++ option_list (publish_command dir config version).
Proof.
  rewrite publishPackage_unfold.
  destruct (publish_command dir config version) as [[d c a]|]; cbn [cwd command args option_list].
  - pose proof (run_spawned w d c a s) as H.
    by destruct (run w d c a s) as [[?|?] ?].
  - cbn. by rewrite app_nil_r.
Qed.

Lemma exit_handler_spawned e s : spawned (snd (exit_handler e s)) = spawned s.
Proof.
  destruct e; cbn; try done; by destruct (JsString.truthy _).
Qed.

Lemma exit_handler_code e s :
  fst (exit_handler e s) = match e with NeutralExitError _ => 78 | _ => 1 end.
Proof. by destruct e. Qed.

Lemma script_scan w e config version :
  reaches_scan w e config version ->
  script w =
    match checkCommit w config (commits e) version initial with
    | (Ok true, s1) =>
        finish
          ((publishPackage w (main_dir w) config version ;;
            console_log "Package published.")
             (match createTag w (main_dir w) config version s1 with
              | (Ok _, s2) => logged s2 [Log "Tag created."]
              | (Throw x, s2) => logged s2 [LogError "Failed to create the tag: " x]
              end))
    | (Ok false, s1) =>
        (0, logged s1 [Log "No release command detected in the commit message, finishing the job."])
    | (Throw x, s1) => exit_handler x s1
    end.
Proof.
  intros (Hfile & Href & Hconfig & Hpackage).
  unfold script. rewrite (main_event w e) by done.
  rewrite bool_decide_eq_true_2, Hconfig by done.
  rewrite processDirectory_unfold. cbv zeta. rewrite Hpackage. cbn [version_of].
  by destruct (checkCommit _ _ _ _ _) as [[[]|x] s1].
Qed.

Lemma main_unfold w s :
  main w s =
    match files w !! main_eventFile w with
    | None =>
        (Throw (SystemError (read_error w (main_eventFile w))), s)
    | Some Malformed => (Throw (SyntaxError (parse_error w (main_eventFile w))), s)
    | Some (Document JNull) =>
        (Throw (TypeError "Cannot read properties of null (reading 'ref')"), s)
    | Some (Document (JPackage _)) =>
        (Throw (NeutralExitError EmptyString),
         logged s [Log ("Ref undefined is not the default branch: "
                      +:+ main_defaultBranch w +:+ ", you must run this action on "
                      +:+ main_defaultBranch w +:+ " branch.")])
    | Some (Document (JEvent e)) =>
        if bool_decide (ref e = Some ("refs/heads/" +:+ main_defaultBranch w)) then
          match fst (main_config w (owner e) initial) with
          | Ok config => processDirectory w (main_dir w) config (commits e) s
          | Throw x => (Throw x, s)
          end
        else
          (Throw (NeutralExitError EmptyString),
           logged s [Log ("Ref " +:+ show (ref e) +:+ " is not the default branch: "
                          +:+ main_defaultBranch w +:+ ", you must run this action on "
                          +:+ main_defaultBranch w +:+ " branch.")])
    end.
Proof.
  destruct (files w !! main_eventFile w) as [[|[|e|v]]|] eqn:Hfile.
  - unfold main, bind, readJson. by rewrite Hfile.
  - unfold main, bind, readJson. by rewrite Hfile.
  - by apply main_event.
  - unfold main, bind, readJson. by rewrite Hfile.
  - unfold main, bind, readJson. by rewrite Hfile.
Qed.

Lemma then_log_spawned {A} (m : M A) line s :
  spawned (snd ((m ;; console_log line) s)) = spawned (snd (m s)).
Proof. unfold bind. by destruct (m s) as [[?|?] ?]. Qed.

Lemma finish_spawned r : spawned (snd (finish r)) = spawned (snd r).
Proof. destruct r as [[?|e] s]; [done|]. apply exit_handler_spawned. Qed.

Lemma approved_scan w e config version :
  approved w e config version ->
  exists c, c ∈ commits e /\
    checkCommit w config (commits e) version initial =
      (Ok true, logged initial [Log ("Found commit: " +:+ message c)]).
Proof.
  intros [(_ & _ & Hconfig & _) Hc].
  rewrite <- (main_config_pattern w (owner e) initial config Hconfig) in Hc.
  apply (checkCommit_true_iff w config (commits e) version initial) in Hc.
  destruct (checkCommit_effects w config (commits e) version initial)
    as [r [[Hr Hne]|Hfound]]; [|done].
  rewrite Hr in Hc. by destruct Hne.
Qed.

(** X8: a run that spawns any child at all has got through the branch
    gate, the configuration and the manifest, and has found a commit that
    releases the manifest version. *)
Theorem spawning_requires_a_release_commit w :
  spawned (snd (script w)) <> [] ->
  exists e config version, approved w e config version.
Proof.
  intros Hspawned. change (script w) with (finish (main w initial)) in Hspawned.
  rewrite finish_spawned, main_unfold in Hspawned.
  destruct (files w !! main_eventFile w) as [[|[|e|v]]|] eqn:Hfile; try done.
  destruct (bool_decide _) eqn:Href; [|done]. apply bool_decide_eq_true in Href.
  destruct (fst (main_config w (owner e) initial)) as [config|x] eqn:Hconfig; [|done].
  rewrite processDirectory_unfold in Hspawned. cbv zeta in Hspawned.
  destruct (files w !! Path.join (main_dir w) "package.json") as [[|[|e'|[version|]]]|]
    eqn:Hpackage; cbn [version_of] in Hspawned; try done.
  exists e, config, version. split; [done|].
  rewrite <- (main_config_pattern w (owner e) initial config Hconfig).
  apply (checkCommit_true_iff w config (commits e) version initial).
  destruct (checkCommit_effects w config (commits e) version initial)
    as [r [[Hr Hne]|(c & _ & ->)]]; [|done].
  rewrite Hr in Hspawned. by destruct r as [[]|x].
Qed.

Lemma release_children w e config version :
  approved w e config version ->
  exists n,
    (1 <= n <= 5)%nat /\
    spawned (snd (script w)) =
      take n (tag_commands (main_dir w) config version)
      ++ option_list (publish_command (main_dir w) config version).
Proof.
  intros Happroved. pose proof Happroved as [Hscan _].
  destruct (approved_scan w e config version Happroved) as (c & _ & Hcheck).
  rewrite (script_scan w e config version Hscan), Hcheck.
  rewrite finish_spawned, then_log_spawned, publishPackage_spawned.
  destruct (createTag_prefix w (main_dir w) config version
              (logged initial [Log ("Found commit: " +:+ message c)]))
    as (n & Hn & Hs & _).
  exists n. split; [done|]. f_equal.
  by destruct (createTag _ _ _ _ _) as [[?|?] ?].
Qed.

(** X9: in an approved release the children spawned are, in this order,
    the first one to five git commands of [createTag] and then the publish
    command of the strategy, if it has one: publishing never comes before
    tagging was attempted, and nothing else is ever run. *)
Theorem release_runs_git_then_publish w e config version :
  approved w e config version ->
  exists n,
    (1 <= n <= 5)%nat /\
    spawned (snd (script w)) =
      take n (tag_commands (main_dir w) config version)
      ++ option_list (publish_command (main_dir w) config version).
Proof. apply release_children. Qed.

(** X10: in an approved release with a yarn or npm strategy the exit code
    is decided by the publish command alone, as it answers in this very
    run, after the git commands that were run before it: 0 when it exits
    with code 0, and 1 when it does not, be it that it exits with another
    code, is ended by a signal or cannot be started.  What happened to the
    git commands has no part in it. *)
Theorem publish_decides_the_exit_code w e config version i :
  approved w e config version ->
  publish_command (main_dir w) config version = Some i ->
  exists n,
    (1 <= n <= 5)%nat /\
    let before := take n (tag_commands (main_dir w) config version) in
    spawned (snd (script w)) = before ++ [i] /\
    ((exists stderr, child w before i = Exit (Some 0) stderr) ->
     fst (script w) = 0) /\
    ((forall stderr, child w before i <> Exit (Some 0) stderr) ->
     fst (script w) = 1).
Proof.
  intros Happroved Hcommand. pose proof Happroved as [Hscan _].
  destruct (approved_scan w e config version Happroved) as (c & _ & Hcheck).
  destruct (createTag_prefix w (main_dir w) config version
              (logged initial [Log ("Found commit: " +:+ message c)]))
    as (n & Hn & Hs & _).
  exists n. split; [done|]. cbv zeta.
  rewrite (script_scan w e config version Hscan), Hcheck.
  set (s' := match createTag _ _ _ _ _ with (Ok _, s2) => _ | (Throw x, s2) => _ end).
  assert (spawned s' = take n (tag_commands (main_dir w) config version)) as Hs'.
  { subst s'. by destruct (createTag _ _ _ _ _) as [[?|?] ?]. }
  split.
  { rewrite finish_spawned, then_log_spawned, publishPackage_spawned, Hcommand.
    by rewrite Hs'. }
  unfold bind. rewrite publishPackage_unfold, Hcommand.
  destruct i as [d cmd a]. cbn [cwd command args].
  rewrite run_unfold. cbv zeta. rewrite Hs'. split.
  - intros [stderr ->]. by rewrite decide_True.
  - intros Hfail.
    destruct (child w _ _) as [|code stderr]; [done|].
    destruct (decide (code = Some 0)) as [->|]; [by destruct (Hfail stderr)|done].
Qed.

(** X11: a strategy other than yarn and npm is found out only after
    tagging: the run ends with exit code 1 and the message
    [Unsupported publish type], having run the git commands of
    [createTag]. *)
Theorem unknown_strategy_fails_after_tagging w e config version :
  approved w e config version ->
  publishWith config <> "yarn" -> publishWith config <> "npm" ->
  fst (script w) = 1 /\
  last (console (snd (script w)))
    = Some (Log ("Unsupported publish type: " +:+ publishWith config)) /\
  exists n, (1 <= n <= 5)%nat /\
    spawned (snd (script w)) = take n (tag_commands (main_dir w) config version).
Proof.
  intros Happroved Hyarn Hnpm.
  assert (publish_command (main_dir w) config version = None) as Hnone.
  { unfold publish_command. by rewrite !decide_False. }
  destruct (release_children w e config version Happroved)
    as (n & Hn & Hs).
  rewrite Hnone in Hs. cbn in Hs. rewrite app_nil_r in Hs.
  split; [|split; [|by exists n]].
  - pose proof Happroved as [Hscan _].
    destruct (approved_scan w e config version Happroved) as (c & _ & Hcheck).
    rewrite (script_scan w e config version Hscan), Hcheck.
    unfold bind. by rewrite publishPackage_unfold, Hnone.
  - pose proof Happroved as [Hscan _].
    destruct (approved_scan w e config version Happroved) as (c & _ & Hcheck).
    rewrite (script_scan w e config version Hscan), Hcheck.
    unfold bind. rewrite publishPackage_unfold, Hnone.
    cbn [finish exit_handler exn_message].
    change (JsString.truthy ("Unsupported publish type: " +:+ publishWith config)) with true.
    cbn [snd console_log emit console]. by rewrite last_snoc.
Qed.

Lemma checkCommit_throws w config commits version s x s' :
  checkCommit w config commits version s = (Throw x, s') ->
  regexp w (commitPattern config) = None /\ commits <> [] /\ s' = s /\
  x = SyntaxError (regexp_error w (commitPattern config)).
Proof.
  induction commits as [|c rest IH]; [done|].
  destruct (regexp w (commitPattern config)) as [exec|] eqn:Hre.
  - rewrite (checkCommit_cons _ _ _ _ _ exec) by done.
    destruct (captured _ _); [done|]. intros H. by destruct (IH H).
  - simpl. unfold bind, String_match. rewrite Hre. by intros [= <- <-].
Qed.

Lemma main_config_throws w o s x :
  fst (main_config w o s) = Throw x ->
  exists name, x = Error ("missing placeholder in variable: " +:+ name).
Proof.
  unfold main_config, bind, placeholderEnv.
  destruct (getEnv w "TAG_NAME") as [t|];
    [destruct (JsString.truthy t), (JsString.includes "%s" t)|];
    cbn; try (intros [= <-]; by eexists);
    (destruct (getEnv w "TAG_MESSAGE") as [m|];
     [destruct (JsString.truthy m), (JsString.includes "%s" m)|]);
    cbn; try done; intros [= <-]; by eexists.
Qed.

Lemma processDirectory_neutral w dir config commits s msg :
  fst (processDirectory w dir config commits s) = Throw (NeutralExitError msg) ->
  files w !! Path.join dir "package.json" = None \/
  files w !! Path.join dir "package.json" = Some Malformed.
Proof.
  rewrite processDirectory_unfold. cbv zeta.
  destruct (files w !! Path.join dir "package.json") as [[|packageObj]|]; [by right| |by left].
  destruct (version_of packageObj) as [version|]; [|done].
  destruct (checkCommit w config commits version s) as [[[]|x] s1] eqn:Hcheck.
  - unfold bind. rewrite publishPackage_unfold.
    destruct (publish_command dir config version) as [[d c a]|]; [|done].
    cbn [cwd command args].
    match goal with |- context [run w d c a ?s'] =>
      destruct (run_cases w d c a s') as (r & lines & -> & [->|[->|(code & _ & ->)]]) end;
      done.
  - done.
  - apply checkCommit_throws in Hcheck as (_ & _ & _ & ->). done.
Qed.

(** X12: whatever the environment, the files and the children, the exit
    code is 0, 1 or 78; when the event file holds a payload it is 78
    exactly when the ref is not the default branch or, the configuration
    being accepted, the manifest cannot be read.  In particular a tag that
    exists already never makes the run end with 78. *)
Theorem neutral_exit_code w :
  (fst (script w) = 0 \/ fst (script w) = 1 \/ fst (script w) = 78) /\
  (forall e,
      files w !! main_eventFile w = Some (Document (JEvent e)) ->
      fst (script w) = 78 <->
      ref e <> Some ("refs/heads/" +:+ main_defaultBranch w) \/
      exists config,
        fst (main_config w (owner e) initial) = Ok config /\
        (files w !! Path.join (main_dir w) "package.json" = None \/
         files w !! Path.join (main_dir w) "package.json" = Some Malformed)).
Proof.
  split.
  { unfold script. destruct (main w initial) as [[?|x] s]; [by left|].
    rewrite exit_handler_code. destruct x; auto. }
  intros e Hfile.
  unfold script. rewrite (main_event w e) by done.
  destruct (bool_decide _) eqn:Href.
  - apply bool_decide_eq_true in Href.
    destruct (fst (main_config w (owner e) initial)) as [config|x] eqn:Hconfig.
    + destruct (processDirectory w (main_dir w) config (commits e) initial)
        as [[?|x] s] eqn:Hproc.
      * split; [done|]. intros [Hne|(config' & _ & Hpackage)]; [done|].
        exfalso. revert Hproc. rewrite processDirectory_unfold. cbv zeta.
        by destruct Hpackage as [-> | ->].
      * rewrite exit_handler_code. split.
        -- intros H78. right. exists config. split; [done|].
           destruct x; try done.
           apply (processDirectory_neutral w (main_dir w) config (commits e) initial msg).
           by rewrite Hproc.
        -- intros [Hne|(config' & _ & Hpackage)]; [done|].
           revert Hproc. rewrite processDirectory_unfold. cbv zeta.
           destruct Hpackage as [-> | ->]; by intros [= <- <-].
    + apply main_config_throws in Hconfig as [name ->]. rewrite exit_handler_code.
      split; [done|]. intros [Hne|(config' & Hc & _)]; done.
  - apply bool_decide_eq_false in Href. split; [by left|done].
Qed.

(** X13: when the event file is missing, is not JSON or holds [null], the
    run ends with exit code 1, having printed one line and spawned no
    child. *)
Theorem unreadable_event_is_fatal w :
  files w !! main_eventFile w = None \/
  files w !! main_eventFile w = Some Malformed \/
  files w !! main_eventFile w = Some (Document JNull) ->
  fst (script w) = 1 /\
  spawned (snd (script w)) = [] /\
  length (console (snd (script w))) = 1%nat.
Proof.
  unfold script. rewrite main_unfold.
  intros [-> | [-> | ->]]; cbn [exit_handler exn_message];
    by destruct (JsString.truthy _).
Qed.

(** X14: a manifest that is [null] or has no version is fatal: exit code
    1, the line [missing version field!] and no child. *)
Theorem missing_version_is_fatal w e config packageObj :
  files w !! main_eventFile w = Some (Document (JEvent e)) ->
  ref e = Some ("refs/heads/" +:+ main_defaultBranch w) ->
  fst (main_config w (owner e) initial) = Ok config ->
  files w !! Path.join (main_dir w) "package.json" = Some (Document packageObj) ->
  version_of packageObj = None ->
  script w = (1, {| console := [Log "missing version field!"]; spawned := [] |}).
Proof.
  intros Hfile Href Hconfig Hpackage Hversion.
  unfold script. rewrite (main_event w e) by done.
  rewrite bool_decide_eq_true_2, Hconfig by done.
  rewrite processDirectory_unfold. cbv zeta. by rewrite Hpackage, Hversion.
Qed.

(** X15: a commit pattern that is not a regular expression goes unnoticed
    when the push has no commits (exit code 0) and is fatal as soon as
    there is one: exit code 1, no child, and the one line printed is the
    message of the [SyntaxError] of the engine (or the error itself should
    its message be empty). *)
Theorem ill_formed_pattern_fatal_with_commits w e config version :
  reaches_scan w e config version ->
  regexp w (main_commitPattern w) = None ->
  (commits e = [] ->
   script w =
     (0, {| console :=
              [Log "No release command detected in the commit message, finishing the job."];
            spawned := [] |})) /\
  (commits e <> [] ->
   script w =
     (1, {| console :=
              [if JsString.truthy (regexp_error w (main_commitPattern w))
               then Log (regexp_error w (main_commitPattern w))
               else LogExn (SyntaxError (regexp_error w (main_commitPattern w)))];
            spawned := [] |})).
Proof.
  intros Hscan Hre. pose proof Hscan as (_ & _ & Hconfig & _).
  apply main_config_pattern in Hconfig.
  rewrite (script_scan w e config version Hscan). split.
  - by intros ->.
  - destruct (commits e) as [|c rest]; [done|]. intros _.
    simpl. unfold bind, String_match. rewrite Hconfig, Hre.
    cbn [throw exit_handler exn_message]. by destruct (JsString.truthy _).
Qed.

Lemma append_cons c (s t : string) : String c s +:+ t = String c (s +:+ t).
Proof. reflexivity. Qed.

Lemma append_empty_r s : s +:+ EmptyString = s.
Proof. induction s as [|c s IH]; [done|]. by rewrite append_cons, IH. Qed.

Lemma append_assoc (a b c : string) : (a +:+ b) +:+ c = a +:+ b +:+ c.
Proof. induction a as [|x a IH]; [done|]. by rewrite !append_cons, IH. Qed.

Lemma prefix_spec n s : String.prefix n s = true <-> exists b, s = n +:+ b.
Proof.
  revert s. induction n as [|c n IH]; intros s.
  - split; [intros _; by exists s|]. by destruct s.
  - destruct s as [|c' s]; cbn.
    + split; [done|]. by intros [b [=]].
    + destruct (ascii_dec c c') as [->|Hne].
      * rewrite IH. split; intros [b H]; exists b; [by rewrite H|by injection H].
      * split; [done|]. intros [b [= ? _]]. by destruct Hne.
Qed.

Lemma includes_spec n s :
  JsString.includes n s = true <-> exists a b, s = a +:+ n +:+ b.
Proof.
  induction s as [|c s IH].
  - change (JsString.includes n EmptyString) with (String.prefix n EmptyString || false).
    rewrite orb_false_r, prefix_spec. split.
    + intros [b H]. by exists EmptyString, b.
    + intros (a & b & H). destruct a; [by exists b|done].
  - change (JsString.includes n (String c s))
      with (String.prefix n (String c s) || JsString.includes n s).
    rewrite orb_true_iff, prefix_spec, IH. split.
    + intros [[b H]|(a & b & H)].
      * by exists EmptyString, b.
      * exists (String c a), b. by rewrite append_cons, H.
    + intros (a & b & H). destruct a as [|c' a].
      * left. by exists b.
      * right. rewrite append_cons in H. injection H as _ H. by exists a, b.
Qed.

Lemma main_config_templates w o s config :
  fst (main_config w o s) = Ok config ->
  (exists a b, tagName config = a +:+ "%s" +:+ b) /\
  (exists a b, tagMessage config = a +:+ "%s" +:+ b).
Proof.
  assert (forall name s' v, fst (placeholderEnv w name "v%s" s') = Ok v ->
            exists a b, v = a +:+ "%s" +:+ b) as Hone.
  { intros name s' v. unfold placeholderEnv.
    destruct (getEnv w name) as [str|]; [|intros [= <-]; by exists "v", EmptyString].
    destruct (JsString.truthy str); cbn; [|intros [= <-]; by exists "v", EmptyString].
    destruct (JsString.includes "%s" str) eqn:Hincl; cbn; [|done].
    intros [= <-]. by apply includes_spec. }
  unfold main_config, bind.
  destruct (placeholderEnv w "TAG_NAME" "v%s" s) as [[t|x] s1] eqn:Ht; [|done].
  destruct (placeholderEnv w "TAG_MESSAGE" "v%s" s1) as [[m|x] s2] eqn:Hm; [|done].
  intros [= <-]. cbn. split.
  - apply (Hone "TAG_NAME" s). by rewrite Ht.
  - apply (Hone "TAG_MESSAGE" s1). by rewrite Hm.
Qed.

(** X16: in every configuration that [main] accepts, the tag name and
    the tag message contain the placeholder. *)
Theorem accepted_templates_hold_the_placeholder w o s config :
  fst (main_config w o s) = Ok config ->
  (exists a b, tagName config = a +:+ "%s" +:+ b) /\
  (exists a b, tagMessage config = a +:+ "%s" +:+ b).
Proof. apply main_config_templates. Qed.

Lemma includes_cons_false n c s :
  JsString.includes n (String c s) = false ->
  String.prefix n (String c s) = false /\ JsString.includes n s = false.
Proof.
  change (JsString.includes n (String c s))
    with (String.prefix n (String c s) || JsString.includes n s).
  apply orb_false_elim.
Qed.

Lemma ascii_cases (P : ascii -> Prop) (c0 : ascii) :
  P c0 -> (forall c, c <> c0 -> P c) -> forall c, P c.
Proof. intros H0 H c. destruct (decide (c = c0)) as [->|Hne]; auto. Qed.

Lemma getSubstitution_other matched before after c r :
  c <> "$"%char ->
  JsString.getSubstitution matched before after (String c r) =
  String c (JsString.getSubstitution matched before after r).
Proof.
  intros Hc. destruct c as [[] [] [] [] [] [] [] []]; try reflexivity.
  by destruct Hc.
Qed.

Lemma getSubstitution_plain matched before after v :
  JsString.includes "$" v = false ->
  JsString.getSubstitution matched before after v = v.
Proof.
  induction v as [|c r IH]; [done|]. intros [Hp Hr]%includes_cons_false.
  rewrite getSubstitution_other, IH; [done|done|].
  intros ->. assert (String.prefix "$" (String "$" r) = true) as Ht
    by (apply prefix_spec; by exists r).
  congruence.
Qed.

Lemma replace_from_placeholder before rest v :
  JsString.replace_placeholder_from before (String "%" (String "s" rest)) v =
  JsString.getSubstitution "%s" before rest v
    +:+ JsString.replace_placeholder_from (before +:+ "%s") rest v.
Proof. reflexivity. Qed.

Lemma replace_from_other before c t v :
  (c = "%"%char -> forall rest, t <> String "s" rest) ->
  JsString.replace_placeholder_from before (String c t) v =
  String c (JsString.replace_placeholder_from (before +:+ String c EmptyString) t v).
Proof.
  intros H. destruct c as [[] [] [] [] [] [] [] []]; try reflexivity.
  destruct t as [|c' rest]; [reflexivity|].
  destruct c' as [[] [] [] [] [] [] [] []]; try reflexivity.
  by destruct (H eq_refl rest).
Qed.

Lemma substitute_other c t v :
  (c = "%"%char -> forall rest, t <> String "s" rest) ->
  substitute (String c t) v = String c (substitute t v).
Proof.
  intros H. destruct c as [[] [] [] [] [] [] [] []]; try reflexivity.
  destruct t as [|c' rest]; [reflexivity|].
  destruct c' as [[] [] [] [] [] [] [] []]; try reflexivity.
  by destruct (H eq_refl rest).
Qed.

Lemma placeholder_or_other c t :
  (c = "%"%char /\ exists rest, t = String "s" rest) \/
  (c = "%"%char -> forall rest, t <> String "s" rest).
Proof.
  destruct (decide (c = "%"%char)) as [->|Hc]; [|by right].
  destruct t as [|c' rest]; [by right|].
  destruct (decide (c' = "s"%char)) as [->|Hc']; [left; eauto|].
  right. intros _ rest' [= ? _]. done.
Qed.

Lemma replace_from_plain v :
  JsString.includes "$" v = false ->
  forall n t before,
    (String.length t <= n)%nat ->
    JsString.replace_placeholder_from before t v = substitute t v.
Proof.
  intros Hv. induction n as [|n IH]; intros t before Hlen.
  - destruct t; [done|cbn in Hlen; lia].
  - destruct t as [|c t]; [done|].
    destruct (placeholder_or_other c t) as [[-> [rest ->]]|Hother].
    + rewrite replace_from_placeholder, getSubstitution_plain by done.
      change (substitute (String "%" (String "s" rest)) v) with (v +:+ substitute rest v).
      f_equal. apply IH. cbn in Hlen. lia.
    + rewrite replace_from_other, substitute_other by done.
      f_equal. apply IH. cbn in Hlen. lia.
Qed.

Lemma substitute_without_placeholder t v :
  JsString.includes "%s" t = false -> substitute t v = t.
Proof.
  induction t as [|c t IH]; [done|]. intros [Hp Hr]%includes_cons_false.
  rewrite substitute_other, IH; [done|done|].
  intros -> rest ->. assert (String.prefix "%s" (String "%" (String "s" rest)) = true) as Ht
    by (apply prefix_spec; by exists rest).
  congruence.
Qed.

Lemma replace_without_placeholder t v before :
  JsString.includes "%s" t = false ->
  JsString.replace_placeholder_from before t v = t.
Proof.
  revert before. induction t as [|c t IH]; [done|].
  intros before [Hp Hr]%includes_cons_false.
  rewrite replace_from_other, IH; [done|done|].
  intros -> rest ->. assert (String.prefix "%s" (String "%" (String "s" rest)) = true) as Ht
    by (apply prefix_spec; by exists rest).
  congruence.
Qed.

(** X17: for a version without a dollar sign, rendering a template is
    replacing every placeholder by the version as it stands, so [v%s]
    gives [v] followed by the version; a template without placeholder is
    rendered as itself. *)
Theorem rendering_is_plain_substitution template version :
  (JsString.includes "$" version = false ->
   JsString.replace_placeholder template version = substitute template version) /\
  (JsString.includes "$" version = false ->
   JsString.replace_placeholder "v%s" version = "v" +:+ version) /\
  (JsString.includes "%s" template = false ->
   JsString.replace_placeholder template version = template).
Proof.
  split; [|split].
  - intros Hv. by apply (replace_from_plain version Hv (String.length template)).
  - intros Hv. unfold JsString.replace_placeholder.
    rewrite (replace_from_plain version Hv 3) by (cbn; lia).
    change (substitute "v%s" version) with (String "v" (version +:+ EmptyString)).
    by rewrite append_empty_r.
  - apply replace_without_placeholder.
Qed.

Lemma substitute_holds_value v :
  forall n t,
    (String.length t <= n)%nat ->
    JsString.includes "%s" t = true ->
    exists a b, substitute t v = a +:+ v +:+ b.
Proof.
  induction n as [|n IH]; intros t Hlen Hincl.
  - destruct t; [done|cbn in Hlen; lia].
  - destruct t as [|c t]; [done|].
    destruct (placeholder_or_other c t) as [[-> [rest ->]]|Hother].
    + by exists EmptyString, (substitute rest v).
    + rewrite substitute_other by done.
      change (JsString.includes "%s" (String c t))
        with (String.prefix "%s" (String c t) || JsString.includes "%s" t) in Hincl.
      apply orb_true_iff in Hincl as [Hp|Hincl].
      * apply prefix_spec in Hp as [b [= -> ->]]. by destruct (Hother eq_refl b).
      * destruct (IH t) as (a & b & ->); [cbn in Hlen; lia|done|].
        by exists (String c a), b.
Qed.

(** X18: for a version without a dollar sign, the tag name and the tag
    message rendered from an accepted configuration contain the version. *)
Theorem rendered_tag_holds_the_version w o s config version :
  fst (main_config w o s) = Ok config ->
  JsString.includes "$" version = false ->
  (exists a b,
      JsString.replace_placeholder (tagName config) version = a +:+ version +:+ b) /\
  (exists a b,
      JsString.replace_placeholder (tagMessage config) version = a +:+ version +:+ b).
Proof.
  intros Hconfig Hv.
  destruct (main_config_templates w o s config Hconfig) as [Ht Hm].
  apply includes_spec in Ht, Hm.
  unfold JsString.replace_placeholder.
  rewrite !(replace_from_plain version Hv _ _ _ (le_n _)).
  split; by eapply substitute_holds_value.
Qed.

Lemma strip_prefix_spec p s rest :
  JsString.strip_prefix p s = Some rest <-> s = p +:+ rest.
Proof.
  revert s. induction p as [|a p IH]; intros s.
  - change (EmptyString +:+ rest) with rest. cbn. split; congruence.
  - destruct s as [|b s]; cbn; [split; discriminate|].
    rewrite append_cons. destruct (decide (a = b)) as [->|Hne].
    + rewrite IH. split; congruence.
    + split; [discriminate|]. intros [= ? _]. by destruct Hne.
Qed.

Lemma strip_first_some ps s rest :
  JsString.strip_first ps s = Some rest -> exists p, p ∈ ps /\ s = p +:+ rest.
Proof.
  induction ps as [|p ps IH]; [done|]. cbn.
  destruct (JsString.strip_prefix p s) as [r|] eqn:Hp.
  - intros [= ->]. exists p. split; [left|]. by apply strip_prefix_spec.
  - intros (q & Hq & ->)%IH. exists q. split; [by right|done].
Qed.

Lemma after_white_space_intro p rest :
  p ∈ JsString.white_space -> JsString.after_white_space (p +:+ rest) = Some rest.
Proof.
  unfold JsString.white_space. rewrite !elem_of_cons, elem_of_nil.
  intros H. repeat (destruct H as [->|H]; [reflexivity|]). done.
Qed.

Lemma white_space_not_empty p : p ∈ JsString.white_space -> (1 <= String.length p)%nat.
Proof.
  unfold JsString.white_space. rewrite !elem_of_cons, elem_of_nil.
  intros H. repeat (destruct H as [->|H]; [cbn; lia|]). done.
Qed.

Lemma length_append (a b : string) :
  String.length (a +:+ b) = (String.length a + String.length b)%nat.
Proof. induction a as [|c a IH]; [done|]. rewrite append_cons. cbn. by rewrite IH. Qed.

Lemma trimStart_from_split fuel s :
  exists characters,
    Forall (fun c => c ∈ JsString.white_space) characters /\
    s = foldr String.append EmptyString characters +:+ JsString.trimStart_from fuel s.
Proof.
  revert s. induction fuel as [|fuel IH]; intros s;
    [exists []; split; [constructor|reflexivity]|].
  cbn [JsString.trimStart_from].
  destruct (JsString.after_white_space s) as [rest|] eqn:Hs;
    [|exists []; split; [constructor|reflexivity]].
  apply strip_first_some in Hs as (p & Hp & ->).
  destruct (IH rest) as (cs & Hcs & Hrest). exists (p :: cs). split; [by constructor|].
  cbn [foldr]. by rewrite append_assoc, <- Hrest.
Qed.

Lemma trimStart_from_white_space characters :
  Forall (fun c => c ∈ JsString.white_space) characters ->
  forall fuel,
    (String.length (foldr String.append EmptyString characters) <= fuel)%nat ->
    JsString.trimStart_from fuel (foldr String.append EmptyString characters)
      = EmptyString.
Proof.
  induction 1 as [|p cs Hp _ IH]; intros fuel Hfuel; [by destruct fuel|].
  cbn [foldr] in Hfuel |- *. rewrite length_append in Hfuel.
  pose proof (white_space_not_empty p Hp).
  destruct fuel as [|fuel]; [lia|]. cbn [JsString.trimStart_from].
  rewrite after_white_space_intro by done. apply IH. lia.
Qed.

Lemma blank_only_white_space s :
  JsString.blank s = true <-> only_white_space s.
Proof.
  unfold JsString.blank, JsString.trimStart. split.
  - intros Hblank.
    destruct (trimStart_from_split (String.length s) s) as (cs & Hcs & Hs).
    destruct (JsString.trimStart_from _ s); [|done].
    exists cs. split; [done|]. by rewrite append_empty_r in Hs.
  - intros (cs & Hcs & ->). by rewrite trimStart_from_white_space.
Qed.

Lemma blank_trimStart s : JsString.blank (JsString.trimStart s) = JsString.blank s.
Proof.
  apply eq_true_iff_eq. rewrite !blank_only_white_space. split.
  - intros (cs & Hcs & Hs). unfold JsString.trimStart in Hs.
    destruct (trimStart_from_split (String.length s) s) as (cs' & Hcs' & Hs').
    exists (cs' ++ cs). split; [by apply Forall_app|].
    rewrite Hs', Hs at 1. clear. induction cs' as [|c cs' IH]; [done|].
    cbn. by rewrite append_assoc, IH.
  - intros Hs. apply blank_only_white_space in Hs. unfold JsString.blank in Hs.
    destruct (JsString.trimStart s); [by exists []|done].
Qed.

Lemma trim_blank s : JsString.truthy (JsString.trim s) = negb (JsString.blank s).
Proof.
  unfold JsString.trim. rewrite <- blank_trimStart.
  destruct (JsString.trimStart s) as [|c r]; [done|].
  cbn [JsString.trimEnd]. by destruct (JsString.blank (String c r)).
Qed.

(** X2: when the child fails, [run] prints its standard error, trimmed,
    after a line naming the exit code, unless that text is made of white
    space characters and line terminators only (the empty text included),
    in which case nothing is printed beyond the command line. *)
Theorem run_reports_stderr_unless_blank w dir cmd arguments s code stderr :
  let i := {| cwd := dir; command := cmd; args := arguments |} in
  child w (spawned s) i = Exit code stderr ->
  code <> Some 0 ->
  (only_white_space stderr ->
   run w dir cmd arguments s = (Throw (ExitError code), started s i)) /\
  (~ only_white_space stderr ->
   run w dir cmd arguments s =
     (Throw (ExitError code),
      logged (started s i)
        [Log ("command failed with code " +:+ show_code code);
         Log (JsString.trim stderr)])).
Proof.
  intros i Hchild Hcode. rewrite run_unfold. fold i. rewrite Hchild.
  rewrite decide_False, trim_blank by done.
  split; intros Hstderr.
  - apply blank_only_white_space in Hstderr. by rewrite Hstderr.
  - destruct (JsString.blank stderr) eqn:Hblank; [|done].
    by apply blank_only_white_space in Hblank.
Qed.

Lemma or_default_truthy a literal :
  JsString.truthy literal = true -> JsString.truthy (or_default a literal) = true.
Proof.
  intros H. unfold or_default. destruct a as [v|]; [|done].
  by destruct (JsString.truthy v) eqn:Hv.
Qed.

Lemma placeholderEnv_truthy w name defaultValue s v :
  JsString.truthy defaultValue = true ->
  fst (placeholderEnv w name defaultValue s) = Ok v -> JsString.truthy v = true.
Proof.
  intros Hd. unfold placeholderEnv. destruct (getEnv w name) as [str|]; [|by intros [= <-]].
  destruct (JsString.truthy str) eqn:Hs; cbn; [|by intros [= <-]].
  destruct (JsString.includes "%s" str); cbn; [|done]. by intros [= <-].
Qed.

(** X19: the directory, the event file, the default branch and the
    commit pattern are never the empty string, nor are the templates and
    the strategy of an accepted configuration. *)
Theorem resolved_options_are_never_empty w :
  main_dir w <> EmptyString /\
  main_eventFile w <> EmptyString /\
  main_defaultBranch w <> EmptyString /\
  main_commitPattern w <> EmptyString /\
  forall o s config,
    fst (main_config w o s) = Ok config ->
    commitPattern config <> EmptyString /\
    tagName config <> EmptyString /\
    tagMessage config <> EmptyString /\
    publishWith config <> EmptyString.
Proof.
  assert (forall v, JsString.truthy v = true -> v <> EmptyString) as Hne
    by (by intros v H ->).
  repeat split; try (apply Hne, or_default_truthy; reflexivity).
  all: revert H; unfold main_config, bind;
    destruct (placeholderEnv w "TAG_NAME" "v%s" s) as [[t|x] s1] eqn:Ht; [|done];
    destruct (placeholderEnv w "TAG_MESSAGE" "v%s" s1) as [[m|x] s2] eqn:Hm; [|done];
    intros [= <-]; cbn; apply Hne.
  - by apply or_default_truthy.
  - apply (placeholderEnv_truthy w "TAG_NAME" "v%s" s); [done|by rewrite Ht].
  - apply (placeholderEnv_truthy w "TAG_MESSAGE" "v%s" s1); [done|by rewrite Hm].
  - by apply or_default_truthy.
Qed.

(** X6: scanning a list of commits is scanning its front and, only when
    nothing was found there, its back from where the front ended. *)
Theorem checkCommit_app w config front back version s :
  checkCommit w config (front ++ back) version s =
    match checkCommit w config front version s with
    | (Ok false, s') => checkCommit w config back version s'
    | outcome => outcome
    end.
Proof.
  induction front as [|c front IH]; [done|].
  destruct (regexp w (commitPattern config)) as [exec|] eqn:Hre.
  - change ((c :: front) ++ back) with (c :: (front ++ back)).
    rewrite !(checkCommit_cons _ _ _ _ _ exec) by done.
    by destruct (captured _ _).
  - change ((c :: front) ++ back) with (c :: (front ++ back)).
    cbn [checkCommit]. unfold bind, String_match. by rewrite Hre.
Qed.

(** X7: [checkCommit] spawns nothing; it leaves the state as it was unless
    it answers [true], and then it has printed one line, naming a commit
    of the list. *)
Theorem checkCommit_only_prints w config commits version s :
  spawned (snd (checkCommit w config commits version s)) = spawned s /\
  (fst (checkCommit w config commits version s) <> Ok true ->
   snd (checkCommit w config commits version s) = s) /\
  (fst (checkCommit w config commits version s) = Ok true ->
   exists c, c ∈ commits /\
     snd (checkCommit w config commits version s) =
       logged s [Log ("Found commit: " +:+ message c)]).
Proof.
  destruct (checkCommit_effects w config commits version s)
    as [r [[-> Hne]|(c & Hin & ->)]].
  - split; [done|]. split; [done|]. intros H. by destruct Hne.
  - split; [done|]. split; [by intros H|]. intros _. by exists c.
Qed.

(** X20: a run that ends with exit code 0 has reached the commit scan and
    either spawned nothing or ended with the publish command of its
    strategy, which exited with code 0. *)
Theorem success_means_published_or_nothing_to_do w :
  fst (script w) = 0 ->
  exists e config version,
    reaches_scan w e config version /\
    (spawned (snd (script w)) = [] \/
     exists i front stderr,
       publish_command (main_dir w) config version = Some i /\
       spawned (snd (script w)) = front ++ [i] /\
       child w front i = Exit (Some 0) stderr).
Proof.
  unfold script. rewrite main_unfold.
  destruct (files w !! main_eventFile w) as [[|[|e|v]]|] eqn:Hfile; try done.
  destruct (bool_decide _) eqn:Href; [|done]. apply bool_decide_eq_true in Href.
  destruct (fst (main_config w (owner e) initial)) as [config|x] eqn:Hconfig;
    [|by rewrite exit_handler_code; destruct x].
  rewrite processDirectory_unfold. cbv zeta.
  destruct (files w !! Path.join (main_dir w) "package.json") as [[|[|e'|[version|]]]|]
    eqn:Hpackage; cbn [version_of]; try done.
  intros Hexit. exists e, config, version. split; [done|].
  destruct (checkCommit_effects w config (commits e) version initial)
    as [r [[Hr Hne]|(c & _ & Hr)]]; rewrite Hr in Hexit |- *.
  - left. destruct r as [[]|x]; [by destruct Hne|done|].
    by rewrite exit_handler_spawned.
  - right. revert Hexit.
    set (s' := match createTag _ _ _ _ _ with (Ok _, s2) => _ | (Throw x, s2) => _ end).
    unfold bind. rewrite publishPackage_unfold.
    destruct (publish_command (main_dir w) config version) as [[d cmd a]|]; [|done].
    cbn [cwd command args].
    pose proof (run_spawned w d cmd a s') as Hs.
    destruct (run w d cmd a s') as [[b|x] s3] eqn:Hrun;
      [|rewrite exit_handler_code; destruct x; try done;
        by destruct (run_cases w d cmd a s') as (r' & l & H' & [->|[->|(? & _ & ->)]]);
           rewrite Hrun in H'].
    intros _. apply run_ok in Hrun as [stderr Hchild].
    exists {| cwd := d; command := cmd; args := a |}, (spawned s'), stderr.
    by split.
Qed.

(** X5: [createTag] succeeds only if [git rev-parse] exited with code 1
    and each of the four commands after it exited with code 0. *)
Theorem created_tag_means_every_git_command_succeeded w dir config version s :
  fst (createTag w dir config version s) = Ok tt ->
  (exists stderr,
      child w (spawned s) (rev_parse dir config version) = Exit (Some 1) stderr) /\
  forall k i,
    (1 <= k)%nat ->
    tag_commands dir config version !! k = Some i ->
    exists stderr,
      child w (spawned s ++ take k (tag_commands dir config version)) i
        = Exit (Some 0) stderr.
Proof.
  rewrite createTag_unfold. cbv zeta.
  pose proof (run_spawned w dir "git"
    ["rev-parse"; "-q"; "--verify";
     "refs/tags/" +:+ JsString.replace_placeholder (tagName config) version] s) as Hprobe.
  rewrite run_unfold in Hprobe |- *. cbv zeta in Hprobe |- *.
  fold (rev_parse dir config version) in Hprobe |- *.
  destruct (child w (spawned s) (rev_parse dir config version)) as [|code stderr];
    [done|].
  destruct (decide (code = Some 0)); [done|].
  set (s1 := if JsString.truthy (JsString.trim stderr) then _ else _) in *.
  cbn [snd] in Hprobe.
  destruct code as [[|[]|]|]; try done.
  unfold bind.
  run_step run_spawned run_never_false; [|done].
  run_step run_spawned run_never_false; [|done].
  run_step run_spawned run_never_false; [|done].
  run_step run_spawned run_never_false; [|done].
  intros _. split; [by exists stderr|].
  apply run_ok in Hrun as [e1 H1], Hrun0 as [e2 H2], Hrun1 as [e3 H3], Hrun2 as [e4 H4].
  rewrite Hspawned1, Hspawned0, Hspawned, Hprobe in H4.
  rewrite Hspawned0, Hspawned, Hprobe in H3.
  rewrite Hspawned, Hprobe in H2.
  rewrite Hprobe in H1.
  repeat rewrite <- app_assoc in H2. repeat rewrite <- app_assoc in H3.
  repeat rewrite <- app_assoc in H4.
  intros k i Hk Hi. unfold tag_commands in Hi |- *.
  destruct k as [|[|[|[|[|k]]]]]; [lia|..]; cbn in Hi |- *; try done;
    injection Hi as <-; eauto.
Qed.

Lemma segments_other c s :
  c <> "/"%char ->
  Path.segments (String c s) =
    match Path.segments s with
    | [] => [String c EmptyString]
    | seg :: segs => String c seg :: segs
    end.
Proof.
  intros Hc. destruct c as [[] [] [] [] [] [] [] []]; try reflexivity. by destruct Hc.
Qed.

Lemma segments_nonempty s : Path.segments s <> [].
Proof.
  induction s as [|c s IH]; [done|].
  destruct (decide (c = "/"%char)) as [->|Hc]; [done|].
  rewrite segments_other by done. by destruct (Path.segments s).
Qed.

Lemma segments_app a b :
  Path.segments (a +:+ String "/" b) = Path.segments a ++ Path.segments b.
Proof.
  induction a as [|c a IH]; [done|]. rewrite append_cons.
  destruct (decide (c = "/"%char)) as [->|Hc].
  - change (Path.segments (String "/" (a +:+ String "/" b)))
      with (EmptyString :: Path.segments (a +:+ String "/" b)).
    by rewrite IH.
  - rewrite !segments_other, IH by done.
    pose proof (segments_nonempty a). by destruct (Path.segments a).
Qed.

Lemma normalizeSegments_snoc allow x :
  ordinary x ->
  forall segs kept,
    Path.normalizeSegments allow kept (segs ++ [x]) =
    Path.normalizeSegments allow kept segs ++ [x].
Proof.
  intros (H1 & H2 & H3). induction segs as [|seg segs IH]; intros kept.
  - cbn. rewrite decide_False by (by intros [|]). by rewrite decide_False.
  - cbn. repeat case_decide; try apply IH. destruct kept as [|top kept].
    + destruct allow; apply IH.
    + case_decide; apply IH.
Qed.

Lemma join_snoc segs x : JsString.join "/" (segs ++ [x]) = directory segs +:+ x.
Proof.
  induction segs as [|seg segs IH]; [done|].
  cbn [directory]. rewrite !append_assoc, <- IH. by destruct segs.
Qed.

Lemma endsWithSlash_app a b :
  b <> EmptyString -> Path.endsWithSlash (a +:+ b) = Path.endsWithSlash b.
Proof.
  intros Hb. induction a as [|c a IH]; [done|]. rewrite append_cons.
  destruct (a +:+ b) eqn:Hab; [by destruct a, b|]. exact IH.
Qed.

Lemma directory_slash segs :
  directory segs = EmptyString \/ Path.endsWithSlash (directory segs) = true.
Proof.
  induction segs as [|seg segs IH]; [by left|]. right. cbn [directory].
  rewrite endsWithSlash_app by done.
  destruct IH as [->|IH]; [done|].
  change ("/" +:+ directory segs) with (String "/" EmptyString +:+ directory segs).
  destruct (directory segs) eqn:Hd; [done|]. by rewrite endsWithSlash_app.
Qed.

(** X21: whatever the directory, the manifest path is [package.json],
    alone or after a path that ends with a slash. *)
Theorem manifest_file_is_named_package_json dir :
  exists parent,
    Path.join dir "package.json" = parent +:+ "package.json" /\
    (parent = EmptyString \/ Path.endsWithSlash parent = true).
Proof.
  destruct dir as [|c dir]; [by exists EmptyString; split; [|left]|].
  set (d := String c dir).
  change (Path.join d "package.json") with (Path.normalize (d +:+ String "/" "package.json")).
  unfold Path.normalize.
  assert (Path.endsWithSlash (d +:+ String "/" "package.json") = false) as ->.
  { change (d +:+ String "/" "package.json") with (d +:+ "/package.json").
    by rewrite endsWithSlash_app. }
  rewrite segments_app.
  change (Path.segments "package.json") with ["package.json"].
  rewrite normalizeSegments_snoc by (by repeat split).
  rewrite join_snoc.
  set (segs := Path.normalizeSegments _ _ _).
  destruct (d +:+ String "/" "package.json") eqn:Hd; [by destruct d|].
  destruct (directory_slash segs) as [Hs|Hs].
  - rewrite Hs. cbn [String.append]. destruct (Path.isAbsolute _).
    + exists "/". split; [done|by right].
    + exists EmptyString. split; [done|by left].
  - destruct (directory segs) as [|c' r] eqn:Hdir; [done|].
    rewrite append_cons. destruct (Path.isAbsolute _).
    + exists ("/" +:+ String c' r). split; [done|right].
      change ("/" +:+ String c' r) with (String "/" EmptyString +:+ String c' r).
      by rewrite endsWithSlash_app.
    + exists (String c' r). split; [done|by right].
Qed.

(** ** The further properties on the sample worlds *)

Lemma approved_intro w e config version c :
  files w !! main_eventFile w = Some (Document (JEvent e)) ->
  ref e = Some ("refs/heads/" +:+ main_defaultBranch w) ->
  fst (main_config w (owner e) initial) = Ok config ->
  files w !! Path.join (main_dir w) "package.json"
    = Some (Document (JPackage (Some version))) ->
  c ∈ commits e ->
  announcesb w (main_commitPattern w) version c = true ->
  approved w e config version.
Proof.
  intros Hfile Href Hconfig Hpackage Hin Hc. split; [done|].
  exists c. split; [done|]. by apply announcesb_true.
Qed.

Lemma run_reports_stderr_unless_blank_witness :
  run silent_tag_failure_world workspace "git" ["tag"; "-a"; "-m"; "v1.2.3"; "v1.2.3"]
    initial =
    (Throw (ExitError (Some 128)),
     {| console := [Log "Executing: git tag -a -m v1.2.3 v1.2.3"];
        spawned := [{| cwd := workspace; command := "git";
                       args := ["tag"; "-a"; "-m"; "v1.2.3"; "v1.2.3"] |}] |}) /\
  run denied_world workspace "git" git_push initial =
    (Throw (ExitError (Some 1)),
     {| console := [Log "Executing: git push origin refs/tags/v1.2.3";
                    Log "command failed with code 1";
                    Log "remote: Permission denied"];
        spawned := [git_push_invocation] |}).
Proof.
  split.
  - apply (proj1 (run_reports_stderr_unless_blank
                    silent_tag_failure_world workspace "git"
                    ["tag"; "-a"; "-m"; "v1.2.3"; "v1.2.3"] initial
                    (Some 128) no_break_space_and_newline eq_refl ltac:(discriminate))).
    apply blank_only_white_space. vm_compute. reflexivity.
  - rewrite (proj2 (run_reports_stderr_unless_blank
                      denied_world workspace "git" git_push initial
                      (Some 1) push_stderr_denied eq_refl ltac:(discriminate))).
    + vm_compute. reflexivity.
    + intros Hblank%blank_only_white_space. vm_compute in Hblank. discriminate.
Defined.

Lemma createTag_existing_tag_witness :
  createTag tagged_world workspace default_config "1.2.3" initial =
    (Throw (NeutralExitError EmptyString),
     {| console := [Log "Executing: git rev-parse -q --verify refs/tags/v1.2.3";
                    Log "Tag already exists: v1.2.3"];
        spawned := [rev_parse workspace default_config "1.2.3"] |}).
Proof.
  apply (createTag_existing_tag tagged_world workspace default_config "1.2.3"
           initial EmptyString).
  vm_compute. reflexivity.
Defined.

Lemma created_tag_means_every_git_command_succeeded_witness :
  exists stderr,
    child release_world
      (take 4 (tag_commands workspace default_config "1.2.3")) git_push_invocation
    = Exit (Some 0) stderr.
Proof.
  apply (proj2 (created_tag_means_every_git_command_succeeded
                  release_world workspace default_config "1.2.3" initial
                  ltac:(vm_compute; reflexivity)) 4%nat git_push_invocation).
  - lia.
  - reflexivity.
Defined.

Lemma checkCommit_only_prints_witness :
  exists c, c ∈ commits_of release_messages /\
    snd (checkCommit release_world default_config (commits_of release_messages)
           "1.2.3" initial)
    = logged initial [Log ("Found commit: " +:+ message c)].
Proof.
  apply (proj2 (proj2 (checkCommit_only_prints release_world default_config
                         (commits_of release_messages) "1.2.3" initial))).
  vm_compute. reflexivity.
Defined.

Lemma spawning_requires_a_release_commit_witness :
  exists e config version, approved release_world e config version.
Proof.
  apply (spawning_requires_a_release_commit release_world).
  vm_compute. discriminate.
Defined.

Lemma release_runs_git_then_publish_witness :
  exists n,
    (1 <= n <= 5)%nat /\
    spawned (snd (script denied_world)) =
      take n (tag_commands (main_dir denied_world) default_config "1.2.3")
      ++ option_list (publish_command (main_dir denied_world) default_config "1.2.3").
Proof.
  apply (release_runs_git_then_publish denied_world release_payload).
  apply (approved_intro _ _ _ _ {| message := "Release 1.2.3" |});
    try (vm_compute; reflexivity).
  repeat constructor.
Defined.

Lemma publish_decides_the_exit_code_witness :
  fst (script yarn_fails_world) = 1 /\ fst (script yarn_missing_world) = 1 /\
  fst (script no_git_world) = 0.
Proof.
  split; [|split].
  - destruct (publish_decides_the_exit_code
                yarn_fails_world release_payload default_config "1.2.3"
                {| cwd := workspace; command := "yarn";
                   args := ["publish"; "--non-interactive"; "--new-version"; "1.2.3"] |}
                ltac:(apply (approved_intro _ _ _ _ {| message := "Release 1.2.3" |});
                      try (vm_compute; reflexivity); repeat constructor)
                ltac:(vm_compute; reflexivity))
      as (n & _ & _ & _ & Hfails).
    apply Hfails. intros stderr. vm_compute. discriminate.
  - destruct (publish_decides_the_exit_code
                yarn_missing_world release_payload default_config "1.2.3"
                {| cwd := workspace; command := "yarn";
                   args := ["publish"; "--non-interactive"; "--new-version"; "1.2.3"] |}
                ltac:(apply (approved_intro _ _ _ _ {| message := "Release 1.2.3" |});
                      try (vm_compute; reflexivity); repeat constructor)
                ltac:(vm_compute; reflexivity))
      as (n & _ & _ & _ & Hfails).
    apply Hfails. intros stderr. vm_compute. discriminate.
  - destruct (publish_decides_the_exit_code
                no_git_world release_payload default_config "1.2.3"
                {| cwd := workspace; command := "yarn";
                   args := ["publish"; "--non-interactive"; "--new-version"; "1.2.3"] |}
                ltac:(apply (approved_intro _ _ _ _ {| message := "Release 1.2.3" |});
                      try (vm_compute; reflexivity); repeat constructor)
                ltac:(vm_compute; reflexivity))
      as (n & _ & _ & Hsucceeds & _).
    apply Hsucceeds. exists EmptyString. vm_compute. reflexivity.
Defined.

Lemma unknown_strategy_fails_after_tagging_witness :
  fst (script pnpm_world) = 1 /\
  last (console (snd (script pnpm_world))) = Some (Log "Unsupported publish type: pnpm") /\
  exists n, (1 <= n <= 5)%nat /\
    spawned (snd (script pnpm_world)) =
      take n (tag_commands (main_dir pnpm_world)
                {| commitPattern := "^(?:Release|Version) (\S+)"; tagName := "v%s";
                   tagMessage := "v%s"; tagAuthor := octocat; publishWith := "pnpm" |}
                "1.2.3").
Proof.
  apply (unknown_strategy_fails_after_tagging pnpm_world release_payload
           {| commitPattern := "^(?:Release|Version) (\S+)"; tagName := "v%s";
              tagMessage := "v%s"; tagAuthor := octocat; publishWith := "pnpm" |}
           "1.2.3").
  - apply (approved_intro _ _ _ _ {| message := "Release 1.2.3" |});
      try (vm_compute; reflexivity).
    repeat constructor.
  - discriminate.
  - discriminate.
Defined.

Lemma neutral_exit_code_witness :
  fst (script branch_world) = 78 /\ fst (script tagged_world) <> 78 /\
  (fst (script no_event_world) = 0 \/ fst (script no_event_world) = 1 \/
   fst (script no_event_world) = 78).
Proof.
  split; [|split].
  - apply (proj2 (proj2 (neutral_exit_code branch_world)
                    {| ref := Some "refs/heads/develop"; owner := octocat;
                       commits := commits_of release_messages |}
                    ltac:(vm_compute; reflexivity))).
    left. vm_compute. discriminate.
  - intros H78.
    apply (proj1 (proj2 (neutral_exit_code tagged_world) release_payload
                    ltac:(vm_compute; reflexivity))) in H78.
    destruct H78 as [Href|(config & _ & [Hpackage|Hpackage])].
    + apply Href. vm_compute. reflexivity.
    + vm_compute in Hpackage. discriminate.
    + vm_compute in Hpackage. discriminate.
  - apply (proj1 (neutral_exit_code no_event_world)).
Defined.

Lemma unreadable_event_is_fatal_witness :
  fst (script no_event_world) = 1 /\
  spawned (snd (script no_event_world)) = [] /\
  length (console (snd (script no_event_world))) = 1%nat.
Proof.
  apply (unreadable_event_is_fatal no_event_world). left. vm_compute. reflexivity.
Defined.

Lemma missing_version_is_fatal_witness :
  script null_manifest_world =
    (1, {| console := [Log "missing version field!"]; spawned := [] |}) /\
  script versionless_manifest_world =
    (1, {| console := [Log "missing version field!"]; spawned := [] |}).
Proof.
  split.
  - apply (missing_version_is_fatal null_manifest_world release_payload
             default_config JNull); vm_compute; reflexivity.
  - apply (missing_version_is_fatal versionless_manifest_world release_payload
             default_config (JPackage None)); vm_compute; reflexivity.
Defined.

Lemma ill_formed_pattern_fatal_with_commits_witness :
  script empty_push_bad_pattern_world =
    (0, {| console :=
             [Log "No release command detected in the commit message, finishing the job."];
           spawned := [] |}) /\
  script quiet_world_bad_pattern =
    (1, {| console := [Log "Invalid regular expression: /(/: Unterminated group"];
           spawned := [] |}).
Proof.
  split.
  - apply (proj1 (ill_formed_pattern_fatal_with_commits empty_push_bad_pattern_world
                    {| ref := Some "refs/heads/master"; owner := octocat; commits := [] |}
                    {| commitPattern := "("; tagName := "v%s"; tagMessage := "v%s";
                       tagAuthor := octocat; publishWith := "yarn" |}
                    "2.0.0"
                    ltac:(repeat split; vm_compute; reflexivity)
                    ltac:(vm_compute; reflexivity))).
    reflexivity.
  - apply (proj2 (ill_formed_pattern_fatal_with_commits quiet_world_bad_pattern
                    {| ref := Some "refs/heads/master"; owner := octocat;
                       commits := commits_of quiet_messages |}
                    {| commitPattern := "("; tagName := "v%s"; tagMessage := "v%s";
                       tagAuthor := octocat; publishWith := "yarn" |}
                    "2.0.0"
                    ltac:(repeat split; vm_compute; reflexivity)
                    ltac:(vm_compute; reflexivity))).
    discriminate.
Defined.

Lemma accepted_templates_hold_the_placeholder_witness :
  exists a b, "release-%s" = a +:+ "%s" +:+ b.
Proof.
  apply (proj1 (accepted_templates_hold_the_placeholder both_set_world octocat initial
                  {| commitPattern := "^(?:Release|Version) (\S+)";
                     tagName := "release-%s"; tagMessage := "v%s";
                     tagAuthor := octocat; publishWith := "npm" |}
                  ltac:(vm_compute; reflexivity))).
Defined.

Lemma rendering_is_plain_substitution_witness :
  JsString.replace_placeholder "%s (release %s)" "1.2.3"
    = substitute "%s (release %s)" "1.2.3" /\
  JsString.replace_placeholder "v%s" "1.2.3" = "v" +:+ "1.2.3" /\
  JsString.replace_placeholder "release" "1.2.3" = "release".
Proof.
  split; [|split].
  - apply (proj1 (rendering_is_plain_substitution "%s (release %s)" "1.2.3")).
    reflexivity.
  - apply (proj1 (proj2 (rendering_is_plain_substitution "v%s" "1.2.3"))).
    reflexivity.
  - apply (proj2 (proj2 (rendering_is_plain_substitution "release" "1.2.3"))).
    reflexivity.
Defined.

Lemma rendered_tag_holds_the_version_witness :
  exists a b, JsString.replace_placeholder "release-%s" "1.2.3" = a +:+ "1.2.3" +:+ b.
Proof.
  apply (proj1 (rendered_tag_holds_the_version both_set_world octocat initial
                  {| commitPattern := "^(?:Release|Version) (\S+)";
                     tagName := "release-%s"; tagMessage := "v%s";
                     tagAuthor := octocat; publishWith := "npm" |}
                  "1.2.3"
                  ltac:(vm_compute; reflexivity) ltac:(reflexivity))).
Defined.

Lemma resolved_options_are_never_empty_witness :
  publishWith default_config <> EmptyString.
Proof.
  apply (proj2 (proj2 (proj2 (proj2 (resolved_options_are_never_empty release_world))))
           octocat initial default_config ltac:(vm_compute; reflexivity)).
Defined.

Lemma success_means_published_or_nothing_to_do_witness :
  exists e config version,
    reaches_scan release_world e config version /\
    (spawned (snd (script release_world)) = [] \/
     exists i front stderr,
       publish_command (main_dir release_world) config version = Some i /\
       spawned (snd (script release_world)) = front ++ [i] /\
       child release_world front i = Exit (Some 0) stderr).
Proof.
  apply (success_means_published_or_nothing_to_do release_world).
  vm_compute. reflexivity.
Defined.
